(** * Union: the data layer of the chat platform (DatabaseHandler)

    A shallow embedding of the RethinkDB-backed data layer: the account
    registry, the discriminator resolver, the credential check, the server
    registry with its membership lists and the invite registry.

    Modelling conventions.
    - A table is a finite map from the primary key ([id]) to the rest of
      the document; a document read back from a table is the pair of its
      key and its fields.
    - An [async] function is a computation in the monad [M]: it reads and
      writes the database, returns a value, throws, or does not return
      ([Diverge], the result of a loop that has used up its fuel).
    - Libraries outside the repository are parameters: bcrypt ([hash],
      [compare]), the base64 decoding of [Buffer] ([decode]), the id
      generators (their results are arguments) and [Math.random] (a stream
      of raw generator words).
    - JavaScript numbers are integers here; the rounding of doubles is not
      modelled.
    - The operations run one after the other; the interleaving of two
      [async] calls is not modelled. The [messages] table, which no other
      table refers to, is kept apart from [Db]. *)

From stdpp Require Import gmap strings list fin_maps.
From Stdlib Require Import Ascii String ZArith NArith Lia.

Open Scope string_scope.

(** ** JavaScript values *)

(** An optional argument or field: absent ([undefined]), [null], or set. *)
Inductive jsopt (A : Type) : Type :=
| Undefined
| Null
| Val (a : A).
Arguments Undefined {A}.
Arguments Null {A}.
Arguments Val {A} a.

(** Truthiness of a string that may be [undefined]: only a nonempty string
    is truthy. *)
Definition truthy (o : option string) : bool :=
  match o with
  | Some (String _ _) => true
  | _ => false
  end.

(** Truthiness of an optional string argument ([undefined], [null], or a
    string). *)
Definition truthy_arg (o : jsopt string) : bool :=
  match o with
  | Val (String _ _) => true
  | _ => false
  end.

(** [s.split(sep)] for a separator of one character. *)
Fixpoint split (sep : ascii) (s : string) : list string :=
  match s with
  | EmptyString => [EmptyString]
  | String c s' =>
      if Ascii.eqb c sep then EmptyString :: split sep s'
      else match split sep s' with
           | [] => [String c EmptyString]
           | w :: ws => String c w :: ws
           end
  end.

(** [String.prototype.padStart]: [fill] is prepended until the length is
    reached; a string that is long enough is returned as it is. *)
Definition padStart (n : nat) (fill : ascii) (s : string) : string :=
  String.string_of_list_ascii (replicate (n - String.length s) fill) ++ s.

(** [n.toString()] for a natural number: its decimal digits. Digits are
    produced from the last one; [fuel] bounds their number. *)
Fixpoint toString_digits (fuel : nat) (n : N) (acc : string) : string :=
  match fuel with
  | O => acc
  | S fuel' =>
      let acc' := String (ascii_of_N (48 + n mod 10)) acc in
      if (n / 10 =? 0)%N then acc' else toString_digits fuel' (n / 10)%N acc'
  end.

Definition toString (n : N) : string :=
  toString_digits (S (N.to_nat (N.log2 n))) n "".

(** The value of a string of decimal digits. *)
Definition digit_value (c : ascii) : option N :=
  let n := N_of_ascii c in
  if ((48 <=? n) && (n <=? 57))%N then Some (n - 48)%N else None.

Fixpoint digits_value_from (acc : N) (s : string) : option N :=
  match s with
  | EmptyString => Some acc
  | String c s' =>
      match digit_value c with
      | Some d => digits_value_from (10 * acc + d)%N s'
      | None => None
      end
  end.

Definition digits_value (s : string) : option N :=
  match s with
  | EmptyString => None
  | _ => digits_value_from 0%N s
  end.

(** ** Documents and tables *)

Record User := mkUser {
  username : string;
  discriminator : string;
  password : string;
  avatarUrl : jsopt string;
  servers : list Z;
  online : bool;
  admin : jsopt bool
}.

(** A user [.without(['servers', 'password'])]. *)
Record Member := mkMember {
  member_id : string;
  member_username : string;
  member_discriminator : string;
  member_avatarUrl : jsopt string;
  member_online : bool;
  member_admin : jsopt bool
}.

Record Server := mkServer {
  name : string;
  iconUrl : jsopt string;
  owner : string
}.

(** A server merged with its [members]. *)
Record JoinedServer := mkJoinedServer {
  joined_id : Z;
  joined_name : string;
  joined_iconUrl : jsopt string;
  joined_owner : string;
  members : list Member
}.

Record Invite := mkInvite {
  serverId : Z;
  inviter : string
}.

Record Db := mkDb {
  users : gmap string User;
  servers_table : gmap Z Server;
  invites : gmap string Invite
}.

Definition empty_db : Db := mkDb ∅ ∅ ∅.

Definition set_users (f : gmap string User → gmap string User) (db : Db) : Db :=
  mkDb (f (users db)) (servers_table db) (invites db).
Definition set_servers (f : gmap Z Server → gmap Z Server) (db : Db) : Db :=
  mkDb (users db) (f (servers_table db)) (invites db).
Definition set_invites (f : gmap string Invite → gmap string Invite) (db : Db) : Db :=
  mkDb (users db) (servers_table db) (f (invites db)).

(** [table.insert(doc)]: a document whose key is taken is not written (the
    conflict is reported in the result, which the callers ignore). *)
Definition table_insert `{Countable K} {V} (k : K) (v : V) (t : gmap K V) : gmap K V :=
  match t !! k with
  | Some _ => t
  | None => <[k := v]> t
  end.

(** [table.get(k).update(f)]: no document, no write. *)
Definition table_update `{Countable K} {V} (k : K) (f : V → V) (t : gmap K V) : gmap K V :=
  alter f k t.

(** The documents of a table, in the order of a table scan. *)
Definition table_docs `{Countable K} {V} (t : gmap K V) : list (K * V) :=
  map_to_list t.

(** ** Computations *)

Inductive outcome (A : Type) : Type :=
| Ret (a : A)
| Throw (msg : string)
| Diverge.
Arguments Ret {A} a.
Arguments Throw {A} msg.
Arguments Diverge {A}.

Definition M (A : Type) : Type := Db → outcome (A * Db).

Definition ret {A} (a : A) : M A := fun db => Ret (a, db).

Definition bind {A B} (m : M A) (k : A → M B) : M B :=
  fun db =>
    match m db with
    | Ret (a, db') => k a db'
    | Throw msg => Throw msg
    | Diverge => Diverge
    end.

Definition throw {A} (msg : string) : M A := fun _ => Throw msg.
Definition diverge {A} : M A := fun _ => Diverge.
Definition gets {A} (f : Db → A) : M A := fun db => Ret (f db, db).
Definition modify (f : Db → Db) : M unit := fun db => Ret (tt, f db).

(** [try { m } catch (e) { h }] *)
Definition try_catch {A} (m : M A) (h : string → M A) : M A :=
  fun db =>
    match m db with
    | Throw msg => h msg db
    | r => r
    end.

Notation "x <- m ;; k" := (bind m (fun x => k))
  (at level 100, m at next level, right associativity).
Notation "m ;;; k" := (bind m (fun _ => k))
  (at level 100, right associativity).

(** ** Partial updates

    The object handed to [.update(...)]: a field is written when its key is
    present in the object and left as it is otherwise. *)

Record UserUpdate := mkUserUpdate {
  upd_username : option string;
  upd_discriminator : option string;
  upd_password : option string;
  upd_avatarUrl : option (jsopt string);
  upd_servers : option (list Z);
  upd_online : option bool;
  upd_admin : option (jsopt bool)
}.

Definition apply_update (p : UserUpdate) (u : User) : User :=
  mkUser (default (username u) (upd_username p))
         (default (discriminator u) (upd_discriminator p))
         (default (password u) (upd_password p))
         (default (avatarUrl u) (upd_avatarUrl p))
         (default (servers u) (upd_servers p))
         (default (online u) (upd_online p))
         (default (admin u) (upd_admin p)).

(** [Object.assign(update, { password })] and its siblings. *)
Definition assign_password (h : string) (p : UserUpdate) : UserUpdate :=
  mkUserUpdate (upd_username p) (upd_discriminator p) (Some h) (upd_avatarUrl p)
               (upd_servers p) (upd_online p) (upd_admin p).
Definition assign_avatarUrl (a : jsopt string) (p : UserUpdate) : UserUpdate :=
  mkUserUpdate (upd_username p) (upd_discriminator p) (upd_password p) (Some a)
               (upd_servers p) (upd_online p) (upd_admin p).
Definition assign_admin (a : jsopt bool) (p : UserUpdate) : UserUpdate :=
  mkUserUpdate (upd_username p) (upd_discriminator p) (upd_password p) (upd_avatarUrl p)
               (upd_servers p) (upd_online p) (Some a).

Record ServerUpdate := mkServerUpdate {
  upd_name : option string;
  upd_iconUrl : option (jsopt string)
}.

Definition apply_server_update (p : ServerUpdate) (s : Server) : Server :=
  mkServer (default (name s) (upd_name p))
           (default (iconUrl s) (upd_iconUrl p))
           (owner s).

(** [{ servers: r.row('servers').append(id) }] *)
Definition append_server (id : Z) (u : User) : User :=
  apply_update
    (mkUserUpdate None None None None (Some (servers u ++ [id])%list) None None) u.

(** [{ servers: r.row('servers').difference([id]) }] *)
Definition difference_server (id : Z) (u : User) : User :=
  apply_update
    (mkUserUpdate None None None None (Some (list_difference (servers u) [id])) None None) u.

(** [{ online }] *)
Definition set_online (b : bool) (u : User) : User :=
  apply_update (mkUserUpdate None None None None None (Some b) None) u.

(** ** The discriminator resolver *)

(** [Math.floor(Math.random() * 9999 + 1)], where [Math.random()] is the
    fraction [(w mod 2^53) / 2^53] made of 53 bits of the generator word
    [w]. *)
Definition random_discriminator (w : N) : N :=
  (((w mod 2 ^ 53) * 9999) / 2 ^ 53 + 1)%N.

(** [n.toString().padStart(4, '0')] *)
Definition format_discriminator (n : N) : string :=
  padStart 4 "0"%char (toString n).

(** [r.table('users').filter({ username, discriminator })] *)
Definition users_matching (uname disc : string) (db : Db) : list (string * User) :=
  filter (λ d, username d.2 = uname ∧ discriminator d.2 = disc)
         (table_docs (users db)).

(** The loop [while (true)] of [rollDiscriminator]: [rnd] is the stream of
    the words that [Math.random] draws, and the loop body runs at most
    [fuel] times. *)
Fixpoint rollDiscriminator (fuel : nat) (rnd : nat → N) (uname : string) : M string :=
  match fuel with
  | O => diverge
  | S fuel' =>
      let discriminator := format_discriminator (random_discriminator (rnd O)) in
      taken <- gets (λ db, bool_decide (0 < List.length (users_matching uname discriminator db))%nat);;
      if negb taken then ret discriminator
      else rollDiscriminator fuel' (λ i, rnd (S i)) uname
  end.

(** ** Queries *)

Definition to_member (d : string * User) : Member :=
  mkMember d.1 (username d.2) (discriminator d.2) (avatarUrl d.2) (online d.2) (admin d.2).

Definition getUsersInServer (id : Z) (db : Db) : list Member :=
  to_member <$> filter (λ d, id ∈ servers d.2) (table_docs (users db)).

(** The server joined with its members; no server, no result (the
    [@returns {Object|Null}] of its documentation; the driver raises an
    error on [merge] there, and the statements use the result only where
    a server is found). *)
Definition getServer (id : Z) (db : Db) : option JoinedServer :=
  match servers_table db !! id with
  | Some s => Some (mkJoinedServer id (name s) (iconUrl s) (owner s) (getUsersInServer id db))
  | None => None
  end.

Definition getUser (id : string) (db : Db) : option User := users db !! id.

Definition getInvite (code : string) (db : Db) : option Invite := invites db !! code.

Definition isInServer (uid : string) (id : Z) (db : Db) : bool :=
  match users db !! uid with
  | Some u => bool_decide (id ∈ servers u)
  | None => false
  end.

(** [r.table('servers').max('id')]: an error on an empty table. *)
Definition table_max_id : M Z :=
  fun db =>
    match (table_docs (servers_table db)).*1 with
    | [] => Throw "Cannot take the max of an empty stream."
    | k :: ks => Ret (foldr Z.max k ks, db)
    end.

Section DatabaseHandler.

(** bcrypt: [hash password salt] is [hash(password, 10)] when the salt
    drawn is [salt]; [compare password h] is [compare(password, h)]. *)
Variable hash : string → N → string.
Variable compare : string → string → bool.
(** [Buffer.from(creds, 'base64').toString()] *)
Variable decode : string → string.

(** ** Accounts *)

Definition createUser (fuel : nat) (rnd : nat → N) (id : string) (salt : N)
    (uname pw : string) : M string :=
  discriminator <- rollDiscriminator fuel rnd uname;;
  if negb (truthy (Some discriminator)) then
    throw "Cannot generate unique discrim. Try a different username."
  else
    modify (set_users (table_insert id
      (mkUser uname discriminator (hash pw salt) Undefined [] false Undefined)));;;
    ret (uname ++ "#" ++ discriminator).

Definition updateUser (fuel : nat) (rnd : nat → N) (salt : N) (id uname : string)
    (pw avatar : jsopt string) (adm : jsopt bool) : M string :=
  discriminator <- rollDiscriminator fuel rnd uname;;
  let update := mkUserUpdate (Some uname) (Some discriminator) None None None None None in
  let update :=
    match pw with
    | Val (String c p) => assign_password (hash (String c p) salt) update
    | _ => update
    end in
  let update :=
    match avatar with
    | Undefined => update
    | _ => assign_avatarUrl avatar update
    end in
  let update :=
    match adm with
    | Val b => assign_admin (Val b) update
    | _ => update
    end in
  modify (set_users (table_update id (apply_update update)));;;
  ret (uname ++ "#" ++ discriminator).

Definition deleteUser (id : string) : M unit :=
  modify (set_users (delete id)).

Definition updatePresenceOf (id : string) (b : bool) : M unit :=
  try_catch (modify (set_users (table_update id (set_online b)))) (λ _, ret tt).

Definition resetPresenceStates : M unit :=
  modify (set_users (fmap (set_online false))).

(** ** Servers and membership *)

Definition addMemberToServer (uid : string) (id : Z) : M unit :=
  user <- gets (λ db, users db !! uid);;
  server <- gets (λ db, servers_table db !! id);;
  match user, server with
  | Some u, Some _ =>
      if bool_decide (id ∈ servers u) then ret tt
      else modify (set_users (table_update uid (append_server id)))
  | _, _ => ret tt
  end.

Definition removeMemberFromServer (uid : string) (id : Z) : M unit :=
  modify (set_users (table_update uid (difference_server id))).

Definition createServer (nm : string) (icon : jsopt string) (own : string)
    : M (option JoinedServer) :=
  largestId <- try_catch table_max_id (λ _, ret 0%Z);;
  let id := (largestId + 1)%Z in
  modify (set_servers (table_insert id (mkServer nm icon own)));;;
  addMemberToServer own id;;;
  gets (getServer id).

Definition updateServer (id : Z) (nm : jsopt string) (icon : jsopt string) : M unit :=
  let update := mkServerUpdate None None in
  let update :=
    match nm with
    | Val (String c n) => mkServerUpdate (Some (String c n)) (upd_iconUrl update)
    | _ => update
    end in
  let update :=
    match icon with
    | Undefined => update
    | _ => mkServerUpdate (upd_name update) (Some icon)
    end in
  modify (set_servers (table_update id (apply_server_update update))).

Definition deleteServer (id : Z) : M unit :=
  modify (set_servers (delete id));;;
  modify (set_invites (filter (λ d, serverId d.2 ≠ id)));;;
  modify (set_users (fmap (λ u,
    if bool_decide (id ∈ servers u) then difference_server id u else u))).

(** ** Invites *)

(** [invite] is the code that [shortId()] has generated. *)
Definition generateInvite (invite : string) (sid : Z) (by_user : string) : M string :=
  modify (set_invites (table_insert invite (mkInvite sid by_user)));;;
  ret invite.

(** ** Credentials *)

(** [.filter({ username: name, discriminator }).nth(0).default(null)] *)
Definition first_user_matching (nm disc : string) (db : Db) : option (string * User) :=
  head (users_matching nm disc db).

Definition authenticate (auth : option string) : M (option (string * User)) :=
  if negb (truthy auth) then ret None
  else
    let parts := split " " (default "" auth) in
    let type := parts !! 0%nat in
    let creds := parts !! 1%nat in
    if negb (bool_decide (type = Some "Basic")) || negb (truthy creds) then ret None
    else
      let fields := split ":" (decode (default "" creds)) in
      let username' := fields !! 0%nat in
      let password' := fields !! 1%nat in
      let tag := if truthy username' then split "#" (default "" username') else [] in
      let name' := tag !! 0%nat in
      let discriminator' := tag !! 1%nat in
      if negb (truthy username') || negb (truthy password')
         || negb (truthy name') || negb (truthy discriminator')
      then ret None
      else
        user <- gets (first_user_matching (default "" name') (default "" discriminator'));;
        match user with
        | None => ret None
        | Some u =>
            let isPasswordValid := compare (default "" password') (password u.2) in
            if negb isPasswordValid then ret None
            else ret (Some u)
        end.

End DatabaseHandler.

(** ** Further queries *)

(** [r.table('users').get(id).without(['password', 'servers'])]; no
    account, no result (its documented [Object|Null]; the driver raises an
    error on [without] there, and the statements use the result only
    where an account is found). *)
Definition getMember (id : string) (db : Db) : option Member :=
  (λ u, to_member (id, u)) <$> users db !! id.

(** [r.table('servers').filter(s => s('owner').eq(username)).count()] *)
Definition getOwnedServers (uid : string) (db : Db) : nat :=
  List.length (filter (λ d, owner d.2 = uid) (table_docs (servers_table db))).

(** [r.table('servers').get(serverId)('owner').eq(username).default(false)] *)
Definition ownsServer (uid : string) (id : Z) (db : Db) : bool :=
  match servers_table db !! id with
  | Some s => bool_decide (owner s = uid)
  | None => false
  end.

(** [serverExists]: a falsy id ([undefined], [null], [0]) is answered
    without a look at the table. *)
Definition serverExists (id : jsopt Z) (db : Db) : bool :=
  match id with
  | Val k =>
      if bool_decide (k = 0%Z) then false
      else bool_decide (is_Some (servers_table db !! k))
  | _ => false
  end.

(** ** Messages

    The [messages] table is a table of its own: no other table refers to
    it and its functions touch nothing else, so they are functions on this
    table. [now] is the value of [Date.now()]. *)

Record Message := mkMessage {
  author : string;
  server : Z;
  contents : string;
  createdAt : Z
}.

Definition storeMessage (now : Z) (id author : string) (server : Z) (contents : string)
    (messages : gmap string Message) : gmap string Message :=
  table_insert id (mkMessage author server contents now) messages.

Definition updateMessage (id contents : string)
    (messages : gmap string Message) : gmap string Message :=
  table_update id (λ m, mkMessage (author m) (server m) contents (createdAt m)) messages.

Definition deleteMessage (id : string)
    (messages : gmap string Message) : gmap string Message :=
  delete id messages.

Definition retrieveMessage (id : string) (messages : gmap string Message) : option Message :=
  messages !! id.

(** ** The logger *)

(** [forceTwoDigits]: [number.toString().padStart(2, '0')] *)
Definition forceTwoDigits (number : N) : string :=
  padStart 2 "0"%char (toString number).

(** ** Histories

    The exported operations that write, as data, and what a sequence of
    them does to the database. The queries ([getUser], [getServer],
    [getInvite], [authenticate], ...) write nothing and are left out. *)

Inductive Op : Type :=
| CreateUser (fuel : nat) (rnd : nat → N) (id : string) (salt : N) (uname pw : string)
| UpdateUser (fuel : nat) (rnd : nat → N) (salt : N) (id uname : string)
    (pw avatar : jsopt string) (adm : jsopt bool)
| DeleteUser (id : string)
| UpdatePresenceOf (id : string) (b : bool)
| ResetPresenceStates
| CreateServer (nm : string) (icon : jsopt string) (own : string)
| UpdateServer (id : Z) (nm icon : jsopt string)
| AddMemberToServer (uid : string) (id : Z)
| RemoveMemberFromServer (uid : string) (id : Z)
| DeleteServer (id : Z)
| GenerateInvite (invite : string) (sid : Z) (by_user : string).

Definition run_op (hash : string → N → string) (op : Op) : M unit :=
  match op with
  | CreateUser fuel rnd id salt uname pw =>
      createUser hash fuel rnd id salt uname pw;;; ret tt
  | UpdateUser fuel rnd salt id uname pw avatar adm =>
      updateUser hash fuel rnd salt id uname pw avatar adm;;; ret tt
  | DeleteUser id => deleteUser id
  | UpdatePresenceOf id b => updatePresenceOf id b
  | ResetPresenceStates => resetPresenceStates
  | CreateServer nm icon own => createServer nm icon own;;; ret tt
  | UpdateServer id nm icon => updateServer id nm icon
  | AddMemberToServer uid id => addMemberToServer uid id
  | RemoveMemberFromServer uid id => removeMemberFromServer uid id
  | DeleteServer id => deleteServer id
  | GenerateInvite invite sid by_user => generateInvite invite sid by_user;;; ret tt
  end.

Fixpoint run_ops (hash : string → N → string) (ops : list Op) : M unit :=
  match ops with
  | [] => ret tt
  | op :: ops' => run_op hash op;;; run_ops hash ops'
  end.

(** A database that the operations build from the empty one. *)
Definition reachable (hash : string → N → string) (db : Db) : Prop :=
  ∃ ops, run_ops hash ops empty_db = Ret (tt, db).

(** The invite codes that a history has generated. *)
Fixpoint generated_codes (ops : list Op) : list string :=
  match ops with
  | [] => []
  | GenerateInvite invite _ _ :: ops' => invite :: generated_codes ops'
  | _ :: ops' => generated_codes ops'
  end.

(** * Vocabulary of the statements *)

(** Joining pieces with a separator, the inverse of [split]. *)
Fixpoint join (sep : ascii) (ws : list string) : string :=
  match ws with
  | [] => ""
  | [w] => w
  | w :: ws' => w ++ String sep (join sep ws')
  end.

(** [ws] are the pieces of [s] between the occurrences of [sep]. *)
Definition pieces (sep : ascii) (s : string) (ws : list string) : Prop :=
  join sep ws = s ∧ Forall (λ w, sep ∉ list_ascii_of_string w) ws ∧ ws ≠ [].

(** A generator word that makes [random_discriminator] draw [n]. *)
Definition word_drawing (n : N) : N := (((n - 1) * 2 ^ 53 + 9998) / 9999)%N.

(** [format_discriminator n] has four characters and reads as [n]. *)
Definition well_formed_discriminator (n : N) : bool :=
  (String.length (format_discriminator n) =? 4)%nat
  && match digits_value (format_discriminator n) with
     | Some m => (m =? n)%N
     | None => false
     end.

(** [P] holds for the [k] numbers from [n] on. *)
Fixpoint all_from (k : nat) (n : N) (P : N → bool) : bool :=
  match k with
  | O => true
  | S k' => P n && all_from k' (N.succ n) P
  end.

(** Some account named [uname] holds the discriminator [d]. *)
Definition taken (uname d : string) (db : Db) : Prop :=
  ∃ id u, users db !! id = Some u ∧ username u = uname ∧ discriminator u = d.

(** The discriminator that the [i]-th turn of the loop draws. *)
Definition draw (rnd : nat → N) (i : nat) : string :=
  format_discriminator (random_discriminator (rnd i)).

(** The discriminators of [uname] are used up: the 9999 of them are
    taken. *)
Definition exhausted (uname : string) (db : Db) : Prop :=
  ∀ n, (1 ≤ n ≤ 9999)%N → taken uname (format_discriminator n) db.

(** A discriminator of [uname] is still free. *)
Definition available (uname : string) (db : Db) : Prop :=
  ∃ n, (1 ≤ n ≤ 9999)%N ∧ ¬ taken uname (format_discriminator n) db.

(** Every value from 1 to 9999 comes up in the stream of draws. *)
Definition fair (rnd : nat → N) : Prop :=
  ∀ n, (1 ≤ n ≤ 9999)%N → ∃ i, random_discriminator (rnd i) = n.

(** The account [(id, u)] is the only one tagged [nm#disc]. *)
Definition only_account (nm disc : string) (id : string) (u : User) (db : Db) : Prop :=
  users db !! id = Some u ∧ username u = nm ∧ discriminator u = disc
  ∧ ∀ id' u', users db !! id' = Some u' → username u' = nm →
              discriminator u' = disc → id' = id.

(** Every server id in a membership list is the id of a server. *)
Definition membership_consistent (db : Db) : Prop :=
  ∀ uid u sid, users db !! uid = Some u → sid ∈ servers u →
               is_Some (servers_table db !! sid).

(** [id] is one more than the largest server id, or 1 when there is no
    server. *)
Definition next_server_id (id : Z) (db : Db) : Prop :=
  (servers_table db = ∅ ∧ id = 1%Z)
  ∨ (is_Some (servers_table db !! (id - 1)%Z)
     ∧ ∀ k, is_Some (servers_table db !! k) → (k ≤ id - 1)%Z).

(** The account [u] with the membership list [l]. *)
Definition with_servers (l : list Z) (u : User) : User :=
  mkUser (username u) (discriminator u) (password u) (avatarUrl u) l
         (online u) (admin u).

(** The account [u] after [updateUser] with the discriminator [d]. *)
Definition updated_account (hash : string → N → string) (salt : N)
    (uname d : string) (pw avatar : jsopt string) (adm : jsopt bool) (u : User) : User :=
  mkUser uname d
         (if truthy_arg pw
          then match pw with Val p => hash p salt | _ => password u end
          else password u)
         (match avatar with Undefined => avatarUrl u | _ => avatar end)
         (servers u) (online u)
         (match adm with Val b => Val b | _ => admin u end).

(** No two accounts share a username and a discriminator. *)
Definition discriminators_unique (db : Db) : Prop :=
  ∀ id1 id2 u1 u2,
    users db !! id1 = Some u1 → users db !! id2 = Some u2 →
    username u1 = username u2 → discriminator u1 = discriminator u2 → id1 = id2.

(** The server ids are 1 or more. *)
Definition server_ids_positive (db : Db) : Prop :=
  ∀ k, is_Some (servers_table db !! k) → (1 ≤ k)%Z.

(** Every character of [s] is a decimal digit. *)
Definition all_digits (s : string) : Prop :=
  Forall (λ c, is_Some (digit_value c)) (list_ascii_of_string s).

(** The account that [createUser] stores. *)
Definition new_account (hash : string → N → string) (salt : N)
    (uname d pw : string) : User :=
  mkUser uname d (hash pw salt) Undefined [] false Undefined.

(** A discriminator: a string of four decimal digits that reads as a
    number from 1 to 9999 ([0001] to [9999]). *)
Definition is_discriminator (d : string) : Prop :=
  String.length d = 4%nat
  ∧ ∃ n, digits_value d = Some n ∧ (1 ≤ n ≤ 9999)%N.

(** A discriminator that no account named [uname] holds remains. *)
Definition unused_remains (uname : string) (db : Db) : Prop :=
  ∃ d, is_discriminator d ∧ ¬ taken uname d db.

(** * Reference instances

    Stand-ins for the libraries, on which the statements are run: a
    base64 decoder for ASCII payloads (characters outside the alphabet are
    skipped and [=] ends the data, as [Buffer] does), and a transparent
    stand-in for bcrypt that keeps the salt and the password apart. *)

Module Reference.

Definition unbase64 (c : ascii) : option N :=
  let n := N_of_ascii c in
  if ((65 <=? n) && (n <=? 90))%N then Some (n - 65)%N
  else if ((97 <=? n) && (n <=? 122))%N then Some (n - 71)%N
  else if ((48 <=? n) && (n <=? 57))%N then Some (n + 4)%N
  else if ((n =? 43) || (n =? 45))%N then Some 62%N
  else if ((n =? 47) || (n =? 95))%N then Some 63%N
  else None.

Fixpoint sextets (s : string) : list N :=
  match s with
  | EmptyString => []
  | String c s' =>
      if Ascii.eqb c "="%char then []
      else match unbase64 c with
           | Some v => v :: sextets s'
           | None => sextets s'
           end
  end.

Fixpoint octets (l : list N) : list N :=
  match l with
  | a :: b :: c :: d :: l' =>
      (a * 4 + b / 16)%N :: ((b mod 16) * 16 + c / 4)%N :: ((c mod 4) * 64 + d)%N
        :: octets l'
  | [a; b; c] => [(a * 4 + b / 16)%N; ((b mod 16) * 16 + c / 4)%N]
  | [a; b] => [(a * 4 + b / 16)%N]
  | _ => []
  end.

Definition decode (creds : string) : string :=
  string_of_list_ascii (ascii_of_N <$> octets (sextets creds)).

Definition hash (pw : string) (salt : N) : string :=
  toString salt ++ "$" ++ pw.

Definition compare (pw h : string) : bool :=
  let salt := default "" (head (split "$" h)) in
  bool_decide (h = salt ++ "$" ++ pw).

(** A stream of generator words that draws 1, 2, ..., 9999 and again. *)
Definition round_robin (i : nat) : N :=
  word_drawing (N.of_nat i mod 9999 + 1).

Definition alice : User :=
  mkUser "alice" "0001" (hash "secret" 7) Undefined [] false Undefined.

(** An account whose password has a colon in it. *)
Definition carol : User :=
  mkUser "carol" "0042" (hash "pa:ss" 7) Undefined [] false Undefined.

Definition accounts : Db :=
  mkDb (<["1" := alice]> (<["2" := carol]> ∅)) ∅ ∅.

(** The 9999 accounts named [uname], keyed by their discriminators. *)
Fixpoint namesakes (uname : string) (k : nat) (n : N) : list (string * User) :=
  match k with
  | O => []
  | S k' =>
      (format_discriminator n,
       mkUser uname (format_discriminator n) (hash "secret" n) Undefined [] false Undefined)
        :: namesakes uname k' (N.succ n)
  end.

Definition crowded (uname : string) : Db :=
  mkDb (list_to_map (namesakes uname (N.to_nat 9999) 1)) ∅ ∅.

End Reference.

(** * Tactics *)

Ltac simpl_default_in Hr :=
  repeat match type of Hr with
         | context [default ?d (Some ?x)] => change (default d (Some x)) with x in Hr
         end.

Ltac simpl_default :=
  repeat match goal with
         | |- context [default ?d (Some ?x)] => change (default d (Some x)) with x
         end.

Ltac rejected Hr :=
  cbn [negb orb] in Hr; unfold ret in Hr; congruence.

(** Further databases for the statements to be run on. *)

Module Sample.

Definition alice2 : User :=
  mkUser "alice" "0002" (Reference.hash "hunter2" 8) Undefined [] false Undefined.

(** The accounts after two registrations as alice. *)
Definition two_alices : Db :=
  mkDb (<["2" := alice2]> (<["1" := Reference.alice]> ∅)) ∅ ∅.

Definition bob : User :=
  mkUser "bob" "0001" (Reference.hash "hunter2" 5) Undefined [] false Undefined.

(** [Reference.accounts] after the registration of bob under the id 3. *)
Definition with_bob : Db :=
  mkDb (<["3" := bob]> (users Reference.accounts)) ∅ ∅.

(** [Reference.accounts] with a server that carol owns. *)
Definition guild : Db :=
  mkDb (users Reference.accounts) {[1%Z := mkServer "Guild" Null "2"]} ∅.

(** The same with alice in the server. *)
Definition guild_joined : Db :=
  mkDb (<["1" := with_servers [1%Z] Reference.alice]> (users Reference.accounts))
       {[1%Z := mkServer "Guild" Null "2"]} ∅.

(** [Reference.accounts] after alice has created a server, and what
    [createServer] has returned to her. *)
Definition alice_guild : Db :=
  mkDb (<["1" := with_servers [1%Z] Reference.alice]> (users Reference.accounts))
       {[1%Z := mkServer "Guild" Null "1"]} ∅.

Definition joined_guild : JoinedServer :=
  mkJoinedServer 1 "Guild" Null "1"
    [to_member ("1", with_servers [1%Z] Reference.alice)].

(** A history that builds [Reference.accounts]. *)
Definition registrations : list Op :=
  [CreateUser 1 (λ _, word_drawing 42) "2" 7 "carol" "pa:ss";
   CreateUser 1 Reference.round_robin "1" 7 "alice" "secret"].

(** An account whose password is [pa], beside the accounts of
    [Reference.accounts]. *)
Definition dave : User :=
  mkUser "dave" "0007" (Reference.hash "pa" 9) Undefined [] false Undefined.

Definition with_dave : Db :=
  mkDb (<["4" := dave]> (users Reference.accounts)) ∅ ∅.

End Sample.

(** * Properties *)

(** ** Strings *)

Lemma split_nonempty sep s : split sep s ≠ [].
Proof. destruct s as [|c s]; simpl; [done|]. destruct (Ascii.eqb c sep); [done|]. by destruct (split sep s). Qed.

(** No piece of [split sep s] contains the separator. *)
Lemma split_no_sep sep s :
  Forall (λ w, sep ∉ list_ascii_of_string w) (split sep s).
Proof.
  induction s as [|c s IH]; simpl.
  - constructor; [|constructor]. simpl. apply not_elem_of_nil.
  - destruct (Ascii.eqb_spec c sep) as [->|Hne].
    + constructor; [|done]. simpl. apply not_elem_of_nil.
    + destruct (split sep s) as [|w ws]; simpl.
      * constructor; [|constructor]. simpl.
        intros [?|H]%elem_of_cons; [congruence|]. by apply not_elem_of_nil in H.
      * inversion IH; subst. constructor; [|done]. simpl.
        intros [?|H]%elem_of_cons; [congruence|done].
Qed.

Lemma join_split sep s : join sep (split sep s) = s.
Proof.
  induction s as [|c s IH]; simpl; [done|].
  destruct (Ascii.eqb_spec c sep) as [->|Hne].
  - pose proof (split_nonempty sep s) as Hn.
    destruct (split sep s) as [|w ws]; [done|]. simpl in *. by rewrite IH.
  - pose proof (split_nonempty sep s) as Hn.
    destruct (split sep s) as [|w ws]; [done|].
    destruct ws as [|w' ws]; simpl in *; by rewrite <- IH.
Qed.

(** The first piece of a split is the string up to its first separator. *)
Lemma split_app_sep sep w s :
  sep ∉ list_ascii_of_string w →
  split sep (w ++ String sep s) = w :: split sep s.
Proof.
  induction w as [|c w IH]; simpl; intros Hw.
  - by rewrite Ascii.eqb_refl.
  - destruct (Ascii.eqb_spec c sep) as [->|Hne].
    + exfalso. apply Hw. by left.
    + rewrite IH; [done|]. intros H. apply Hw. by right.
Qed.

Lemma split_no_occurrence sep w :
  sep ∉ list_ascii_of_string w → split sep w = [w].
Proof.
  induction w as [|c w IH]; simpl; intros Hw; [done|].
  destruct (Ascii.eqb_spec c sep) as [->|Hne].
  - exfalso. apply Hw. by left.
  - rewrite IH; [done|]. intros H. apply Hw. by right.
Qed.

(** ** Discriminators *)

Lemma random_discriminator_range w :
  (1 ≤ random_discriminator w ≤ 9999)%N.
Proof.
  unfold random_discriminator.
  change (2 ^ 53)%N with 9007199254740992%N.
  pose proof (N.mod_lt w 9007199254740992 ltac:(done)) as Hlt.
  generalize dependent (w `mod` 9007199254740992)%N. intros r Hlt.
  assert ((r * 9999) `div` 9007199254740992 < 9999)%N.
  { apply N.Div0.div_lt_upper_bound. lia. }
  generalize dependent ((r * 9999) `div` 9007199254740992)%N. intros. lia.
Qed.

Lemma random_discriminator_word_drawing n :
  (1 ≤ n ≤ 9999)%N → random_discriminator (word_drawing n) = n.
Proof.
  intros Hn. unfold random_discriminator, word_drawing.
  change (2 ^ 53)%N with 9007199254740992%N.
  set (m := (n - 1)%N). assert (m ≤ 9998)%N as Hm by lia.
  set (k := ((m * 9007199254740992 + 9998) `div` 9999)%N).
  assert (9999 * k ≤ m * 9007199254740992 + 9998)%N as Hk1.
  { unfold k. apply N.Div0.mul_div_le. }
  assert (m * 9007199254740992 + 9998 < 9999 * (k + 1))%N as Hk2.
  { unfold k. rewrite N.mul_add_distr_l, N.mul_1_r.
    pose proof (N.mod_lt (m * 9007199254740992 + 9998) 9999 ltac:(done)).
    pose proof (N.div_mod (m * 9007199254740992 + 9998) 9999 ltac:(done)). lia. }
  assert (k < 9007199254740992)%N as Hk3 by lia.
  rewrite (N.mod_small k) by done.
  assert ((k * 9999) `div` 9007199254740992 = m)%N as ->; [|lia].
  symmetry. apply (N.div_unique _ _ _ (k * 9999 - m * 9007199254740992)%N); lia.
Qed.

Lemma all_from_spec k n P m :
  all_from k n P = true → (n ≤ m < n + N.of_nat k)%N → P m = true.
Proof.
  revert n. induction k as [|k IH]; simpl; intros n H Hm; [lia|].
  apply andb_prop in H as [H1 H2].
  destruct (decide (m = n)) as [->|Hne]; [done|].
  apply (IH (N.succ n)); [done|lia].
Qed.

Lemma format_discriminator_all :
  all_from (N.to_nat 9999) 1 well_formed_discriminator = true.
Proof. vm_compute. reflexivity. Qed.

(** The discriminator drawn for a value from 1 to 9999 is a string of four
    decimal digits that reads as this value. *)
Lemma format_discriminator_spec n :
  (1 ≤ n ≤ 9999)%N →
  String.length (format_discriminator n) = 4%nat
  ∧ digits_value (format_discriminator n) = Some n.
Proof.
  intros Hn.
  pose proof (all_from_spec _ _ _ n format_discriminator_all ltac:(lia)) as H.
  apply andb_prop in H as [H1 H2].
  apply Nat.eqb_eq in H1. split; [done|].
  destruct (digits_value (format_discriminator n)) as [m|]; [|done].
  by apply N.eqb_eq in H2 as ->.
Qed.

(** ** The discriminator resolver *)

Lemma elem_of_users_matching uname d db id u :
  (id, u) ∈ users_matching uname d db
  ↔ users db !! id = Some u ∧ username u = uname ∧ discriminator u = d.
Proof.
  unfold users_matching, table_docs.
  rewrite list_elem_of_filter, elem_of_map_to_list. simpl. tauto.
Qed.

Lemma users_matching_taken uname d db :
  (0 < List.length (users_matching uname d db))%nat ↔ taken uname d db.
Proof.
  split.
  - intros Hlen. destruct (users_matching uname d db) as [|[id u] l] eqn:E.
    + simpl in Hlen. lia.
    + exists id, u. apply elem_of_users_matching. rewrite E. by left.
  - intros (id & u & H). apply elem_of_users_matching in H.
    destruct (users_matching uname d db); [by apply elem_of_nil in H|simpl; lia].
Qed.

Lemma rollDiscriminator_unfold fuel rnd uname db :
  rollDiscriminator (S fuel) rnd uname db =
    if bool_decide (taken uname (draw rnd 0) db)
    then rollDiscriminator fuel (λ i, rnd (S i)) uname db
    else Ret (draw rnd 0, db).
Proof.
  simpl. unfold bind, gets, ret, draw.
  rewrite (bool_decide_ext _ _ (users_matching_taken uname _ db)).
  by destruct (bool_decide _).
Qed.

(** A turn that draws a free discriminator ends the loop, at the first
    such turn at the latest, when the fuel reaches it. *)
Lemma rollDiscriminator_returns uname db i :
  ∀ rnd fuel, ¬ taken uname (draw rnd i) db → (i < fuel)%nat →
  ∃ j, (j ≤ i)%nat ∧ ¬ taken uname (draw rnd j) db
       ∧ rollDiscriminator fuel rnd uname db = Ret (draw rnd j, db).
Proof.
  induction i as [|i IH]; intros rnd fuel Hfree Hlt;
    (destruct fuel as [|fuel]; [lia|]); rewrite rollDiscriminator_unfold.
  - exists 0. by rewrite bool_decide_eq_false_2.
  - case_bool_decide as Ht.
    + destruct (IH (λ k, rnd (S k)) fuel Hfree ltac:(lia)) as (j & Hj & Hf & Hr).
      exists (S j). split; [lia|done].
    + exists 0. split; [lia|done].
Qed.

(** What the loop returns has been drawn and is free; the database is only
    read. *)
Lemma rollDiscriminator_ret fuel :
  ∀ rnd uname db d db',
  rollDiscriminator fuel rnd uname db = Ret (d, db') →
  db' = db ∧ ¬ taken uname d db ∧ ∃ j, (j < fuel)%nat ∧ d = draw rnd j.
Proof.
  induction fuel as [|fuel IH]; intros rnd uname db d db' H; [done|].
  rewrite rollDiscriminator_unfold in H. case_bool_decide as Ht.
  - apply IH in H as (-> & Hf & j & Hj & ->).
    split; [done|]. split; [done|]. exists (S j). split; [lia|done].
  - injection H as <- <-. split; [done|]. split; [done|]. exists 0. split; [lia|done].
Qed.

Lemma rollDiscriminator_no_throw fuel :
  ∀ rnd uname db msg, rollDiscriminator fuel rnd uname db ≠ Throw msg.
Proof.
  induction fuel as [|fuel IH]; intros rnd uname db msg; [done|].
  rewrite rollDiscriminator_unfold. case_bool_decide; [apply IH|done].
Qed.

(** More fuel does not change a result. *)
Lemma rollDiscriminator_more_fuel fuel :
  ∀ rnd uname db r fuel',
  rollDiscriminator fuel rnd uname db = Ret r → (fuel ≤ fuel')%nat →
  rollDiscriminator fuel' rnd uname db = Ret r.
Proof.
  induction fuel as [|fuel IH]; intros rnd uname db r fuel' H Hle; [done|].
  destruct fuel' as [|fuel']; [lia|].
  rewrite rollDiscriminator_unfold in *. case_bool_decide; [|done].
  apply (IH _ _ _ _ _ H). lia.
Qed.

(** When every turn draws a taken discriminator the loop never ends. *)
Lemma rollDiscriminator_diverges fuel :
  ∀ rnd uname db, (∀ i, taken uname (draw rnd i) db) →
  rollDiscriminator fuel rnd uname db = Diverge.
Proof.
  induction fuel as [|fuel IH]; intros rnd uname db Hall; [done|].
  rewrite rollDiscriminator_unfold. rewrite bool_decide_eq_true_2 by apply (Hall 0).
  apply IH. intros i. apply (Hall (S i)).
Qed.

Lemma available_not_exhausted uname db :
  available uname db → ¬ exhausted uname db.
Proof. intros (n & Hn & Hfree) Hex. apply Hfree, Hex, Hn. Qed.

Lemma rollDiscriminator_terminates rnd uname db :
  available uname db → fair rnd →
  ∃ fuel d, ∀ fuel', (fuel ≤ fuel')%nat →
    rollDiscriminator fuel' rnd uname db = Ret (d, db).
Proof.
  intros (n & Hn & Hfree) Hfair.
  destruct (Hfair n Hn) as (i & Hi).
  assert (¬ taken uname (draw rnd i) db) as Hd by (unfold draw; by rewrite Hi).
  destruct (rollDiscriminator_returns uname db i rnd (S i) Hd ltac:(lia))
    as (j & Hj & Hf & Hr).
  exists (S i), (draw rnd j). intros fuel' Hle.
  by apply (rollDiscriminator_more_fuel (S i)).
Qed.

Lemma draw_well_formed rnd i :
  String.length (draw rnd i) = 4%nat
  ∧ ∃ n, digits_value (draw rnd i) = Some n ∧ (1 ≤ n ≤ 9999)%N.
Proof.
  pose proof (random_discriminator_range (rnd i)) as Hr.
  destruct (format_discriminator_spec _ Hr) as [Hl Hv].
  split; [done|]. by exists (random_discriminator (rnd i)).
Qed.

Lemma exhausted_all_taken uname db rnd :
  exhausted uname db → ∀ i, taken uname (draw rnd i) db.
Proof. intros Hex i. apply Hex, random_discriminator_range. Qed.

(** [split] computes the pieces, and they are the only ones. *)
Lemma pieces_split sep s : pieces sep s (split sep s).
Proof. split; [apply join_split|]. split; [apply split_no_sep|apply split_nonempty]. Qed.

Lemma split_unique sep s ws : pieces sep s ws → split sep s = ws.
Proof.
  intros (Hj & Hf & Hn). revert s Hj.
  induction ws as [|w ws IH]; intros s Hj; [done|].
  apply Forall_cons in Hf as [Hw Hf].
  destruct ws as [|w' ws].
  - simpl in Hj. subst s. by apply split_no_occurrence.
  - change (w ++ String sep (join sep (w' :: ws)) = s) in Hj. subst s.
    rewrite split_app_sep by done. f_equal. by apply IH.
Qed.

(** ** Account lookup *)

Lemma first_user_matching_None nm disc db :
  first_user_matching nm disc db = None ↔ ¬ taken nm disc db.
Proof.
  unfold first_user_matching. rewrite <- users_matching_taken.
  destruct (users_matching nm disc db); simpl; split; intros H; try done; lia.
Qed.

Lemma first_user_matching_Some nm disc db id u :
  first_user_matching nm disc db = Some (id, u) →
  users db !! id = Some u ∧ username u = nm ∧ discriminator u = disc.
Proof.
  unfold first_user_matching. intros H.
  apply elem_of_users_matching. destruct (users_matching nm disc db) as [|d l]; [done|].
  injection H as ->. by left.
Qed.

Lemma first_user_matching_only nm disc db id u :
  only_account nm disc id u db → first_user_matching nm disc db = Some (id, u).
Proof.
  intros (Hu & Hn & Hd & Huniq).
  destruct (first_user_matching nm disc db) as [[id' u']|] eqn:E.
  - apply first_user_matching_Some in E as (Hu' & Hn' & Hd').
    assert (id' = id) as -> by eauto. congruence.
  - apply first_user_matching_None in E. exfalso. apply E. by exists id, u.
Qed.

(** ** Credentials *)

Lemma authenticate_total compare decode auth db :
  ∃ r, authenticate compare decode auth db = Ret (r, db).
Proof.
  unfold authenticate.
  destruct (truthy auth); simpl; [|by eexists].
  destruct (bool_decide _); simpl; [|by eexists].
  destruct (truthy (split " " (default "" auth) !! 1%nat)); simpl; [|by eexists].
  repeat (match goal with |- context [negb (truthy ?x)] => destruct (truthy x); simpl; [|by eexists] end).
  unfold bind, gets, ret.
  destruct (first_user_matching _ _ db); [|by eexists].
  destruct (compare _ _); by eexists.
Qed.

Lemma truthy_Some_ne s : truthy (Some s) = true ↔ s ≠ "".
Proof. destruct s; simpl; split; intros; congruence. Qed.

(** A header that has all its parts: the account is looked up and the
    second piece of the payload is checked against its hash. *)
Lemma authenticate_parsed compare decode a db words creds fields tag pw parts nm disc :
  pieces " " a words → words !! 0%nat = Some "Basic" → words !! 1%nat = Some creds →
  pieces ":" (decode creds) fields →
  fields !! 0%nat = Some tag → fields !! 1%nat = Some pw →
  pieces "#" tag parts → parts !! 0%nat = Some nm → parts !! 1%nat = Some disc →
  a ≠ "" → creds ≠ "" → tag ≠ "" → pw ≠ "" → nm ≠ "" → disc ≠ "" →
  authenticate compare decode (Some a) db =
    Ret (match first_user_matching nm disc db with
         | Some u => if compare pw (password u.2) then Some u else None
         | None => None
         end, db).
Proof.
  intros Hw Hbasic Hcreds Hf Htag Hpw Hparts Hnm Hdisc Ha Hcne Htne Hpne Hnne Hdne.
  apply truthy_Some_ne in Ha, Hcne, Htne, Hpne, Hnne, Hdne.
  unfold authenticate. rewrite Ha. cbn [negb]. simpl_default.
  rewrite (split_unique _ _ _ Hw), Hbasic, Hcreds, Hcne.
  rewrite bool_decide_eq_true_2 by done. cbn [negb orb]. simpl_default.
  rewrite (split_unique _ _ _ Hf), Htag, Hpw, Htne, Hpne. cbn [negb orb]. simpl_default.
  rewrite (split_unique _ _ _ Hparts), Hnm, Hdisc, Hnne, Hdne. cbn [negb orb]. simpl_default.
  unfold bind, gets, ret.
  destruct (first_user_matching nm disc db) as [u|]; [|done].
  by destruct (compare pw (password u.2)).
Qed.

(** X27. What [authenticate] does with a header, piece by piece. It never
    throws and only reads the database. The header is cut at its spaces,
    the decoded payload at its colons, the username part at its hashes,
    and of each only the first two pieces are read. No account is returned
    for an empty header, for a first word that is not [Basic], for a
    missing or empty second word, or when the username part, the password
    piece, the name or the discriminator is missing or empty. Otherwise
    the first account tagged [name#discriminator] is looked up: no such
    account, no result; it is returned exactly when the password piece,
    the text between the first and the second colon, verifies against its
    stored hash. *)
Theorem authenticate_spec compare decode (auth : option string) (db : Db) :
  ∃ r, authenticate compare decode auth db = Ret (r, db)
  ∧ (truthy auth = false → r = None)
  ∧ ∀ a words, auth = Some a → pieces " " a words →
      (words !! 0%nat ≠ Some "Basic" → r = None)
    ∧ (truthy (words !! 1%nat) = false → r = None)
    ∧ ∀ creds fields,
        words !! 1%nat = Some creds → pieces ":" (decode creds) fields →
        (truthy (fields !! 0%nat) = false → r = None)
      ∧ (truthy (fields !! 1%nat) = false → r = None)
      ∧ ∀ tag pw parts,
          fields !! 0%nat = Some tag → fields !! 1%nat = Some pw →
          pieces "#" tag parts →
          (truthy (parts !! 0%nat) = false → r = None)
        ∧ (truthy (parts !! 1%nat) = false → r = None)
        ∧ ∀ nm disc,
            parts !! 0%nat = Some nm → parts !! 1%nat = Some disc →
            a ≠ "" → words !! 0%nat = Some "Basic" → creds ≠ "" →
            tag ≠ "" → pw ≠ "" → nm ≠ "" → disc ≠ "" →
            (¬ taken nm disc db → r = None)
          ∧ (∀ id u, r = Some (id, u) →
               users db !! id = Some u ∧ username u = nm
               ∧ discriminator u = disc ∧ compare pw (password u) = true)
          ∧ (∀ id u, only_account nm disc id u db →
               r = if compare pw (password u) then Some (id, u) else None).
Proof.
  destruct (authenticate_total compare decode auth db) as [r Hr].
  exists r. split; [done|]. pose proof Hr as Hr0.
  unfold authenticate in Hr.
  split.
  { intros Ht. rewrite Ht in Hr. rejected Hr. }
  intros a words -> Hw.
  simpl_default_in Hr. rewrite (split_unique _ _ _ Hw) in Hr.
  split. { intros Hty. rewrite bool_decide_eq_false_2 in Hr by done.
           destruct (truthy (Some a)); rejected Hr. }
  split. { intros Hc. rewrite Hc in Hr. rewrite orb_true_r in Hr.
           destruct (truthy (Some a)); rejected Hr. }
  intros creds fields Hcreds Hf. rewrite Hcreds in Hr. simpl_default_in Hr.
  rewrite (split_unique _ _ _ Hf) in Hr.
  split. { intros Hu. rewrite Hu in Hr. cbn [negb orb] in Hr.
           destruct (truthy (Some a)), (_ || _); rejected Hr. }
  split. { intros Hp. rewrite Hp in Hr. cbn [negb orb] in Hr. rewrite orb_true_r in Hr.
           destruct (truthy (Some a)), (_ || _); rejected Hr. }
  intros tag pw parts Htag Hpw Hparts. rewrite Htag, Hpw in Hr. simpl_default_in Hr.
  split. { intros Hn. destruct (truthy (Some a)), (_ || _); try rejected Hr.
           destruct (truthy (Some tag)); try rejected Hr.
           rewrite (split_unique _ _ _ Hparts) in Hr. rewrite Hn in Hr.
           cbn [negb orb] in Hr. rewrite ?orb_true_r in Hr. rejected Hr. }
  split. { intros Hn. destruct (truthy (Some a)), (_ || _); try rejected Hr.
           destruct (truthy (Some tag)); try rejected Hr.
           rewrite (split_unique _ _ _ Hparts) in Hr. rewrite Hn in Hr.
           cbn [negb orb] in Hr. rewrite ?orb_true_r in Hr. rejected Hr. }
  intros nm disc Hnm Hdisc Ha Hbasic Hcne Htne Hpne Hnne Hdne.
  clear Hr.
  pose proof (authenticate_parsed compare decode a db _ _ _ _ _ _ _ _
                Hw Hbasic Hcreds Hf Htag Hpw Hparts Hnm Hdisc
                Ha Hcne Htne Hpne Hnne Hdne) as Hr.
  rewrite Hr in Hr0. injection Hr0 as Hr0.
  split; [|split].
  - intros Hfree. apply first_user_matching_None in Hfree. by rewrite Hfree in Hr0.
  - intros id u ->.
    destruct (first_user_matching nm disc db) as [[id' u']|] eqn:E; [|done].
    simpl in Hr0. destruct (compare pw (password u')) eqn:Ec; [|done].
    injection Hr0 as -> ->. by apply first_user_matching_Some in E as (? & ? & ?).
  - intros id u Honly. rewrite (first_user_matching_only _ _ _ _ _ Honly) in Hr0.
    simpl in Hr0. by destruct (compare pw (password u)).
Qed.

(** ** The namespace of the discriminators *)

Lemma digit_value_char c v :
  digit_value c = Some v → c = ascii_of_N (v + 48) ∧ (v ≤ 9)%N.
Proof.
  unfold digit_value. intros H.
  destruct ((48 <=? N_of_ascii c)%N && (N_of_ascii c <=? 57)%N) eqn:E; [|done].
  injection H as <-. apply andb_prop in E as [E1%N.leb_le E2%N.leb_le].
  split; [|lia]. replace (N_of_ascii c - 48 + 48)%N with (N_of_ascii c) by lia.
  by rewrite ascii_N_embedding.
Qed.

(** A string of four digits is determined by the number it reads as. *)
Lemma four_digits_determined s t n :
  String.length s = 4%nat → String.length t = 4%nat →
  digits_value s = Some n → digits_value t = Some n → s = t.
Proof.
  intros Hs Ht Hvs Hvt.
  destruct s as [|a1 [|a2 [|a3 [|a4 [|? ?]]]]]; try done.
  destruct t as [|b1 [|b2 [|b3 [|b4 [|? ?]]]]]; try done.
  cbn in Hvs, Hvt.
  destruct (digit_value a1) as [x1|] eqn:A1; [|done].
  destruct (digit_value a2) as [x2|] eqn:A2; [|done].
  destruct (digit_value a3) as [x3|] eqn:A3; [|done].
  destruct (digit_value a4) as [x4|] eqn:A4; [|done].
  destruct (digit_value b1) as [y1|] eqn:B1; [|done].
  destruct (digit_value b2) as [y2|] eqn:B2; [|done].
  destruct (digit_value b3) as [y3|] eqn:B3; [|done].
  destruct (digit_value b4) as [y4|] eqn:B4; [|done].
  apply digit_value_char in A1 as [-> ?], A2 as [-> ?], A3 as [-> ?], A4 as [-> ?].
  apply digit_value_char in B1 as [-> ?], B2 as [-> ?], B3 as [-> ?], B4 as [-> ?].
  injection Hvs as Hvs. injection Hvt as Hvt.
  assert (x1 = y1 ∧ x2 = y2 ∧ x3 = y3 ∧ x4 = y4) as (-> & -> & -> & ->) by lia.
  done.
Qed.

(** The discriminators are the strings that [format_discriminator] makes
    of the numbers from 1 to 9999. *)
Lemma is_discriminator_format d :
  is_discriminator d ↔ ∃ n, (1 ≤ n ≤ 9999)%N ∧ d = format_discriminator n.
Proof.
  split.
  - intros (Hlen & n & Hv & Hn). exists n. split; [done|].
    destruct (format_discriminator_spec n Hn) as [Hlen' Hv'].
    by apply (four_digits_determined _ _ n).
  - intros (n & Hn & ->). destruct (format_discriminator_spec n Hn) as [Hlen Hv].
    split; [done|]. by exists n.
Qed.

Lemma unused_remains_available uname db :
  unused_remains uname db ↔ available uname db.
Proof.
  split.
  - intros (d & (n & Hn & ->)%is_discriminator_format & Hfree). by exists n.
  - intros (n & Hn & Hfree). exists (format_discriminator n). split; [|done].
    apply is_discriminator_format. by exists n.
Qed.

(** ** Reference instances *)

Lemma round_robin_fair : fair Reference.round_robin.
Proof.
  intros n Hn. exists (N.to_nat (n - 1)). unfold Reference.round_robin.
  rewrite N2Nat.id, N.mod_small by lia.
  replace (n - 1 + 1)%N with n by lia.
  by apply random_discriminator_word_drawing.
Qed.

Lemma accounts_available : available "alice" Reference.accounts.
Proof.
  exists 2%N. split; [lia|].
  apply (bool_decide_unpack _). vm_compute. reflexivity.
Qed.

Lemma namesakes_elem uname n : ∀ k start,
  (start ≤ n < start + N.of_nat k)%N →
  ∃ u, (format_discriminator n, u) ∈ Reference.namesakes uname k start.
Proof.
  induction k as [|k IH]; intros start Hn; [lia|].
  cbn [Reference.namesakes].
  destruct (decide (n = start)) as [->|Hne].
  - eexists. by left.
  - destruct (IH (N.succ start) ltac:(lia)) as [u Hu]. exists u. by right.
Qed.

Lemma namesakes_tagged uname d u : ∀ k start,
  (d, u) ∈ Reference.namesakes uname k start →
  username u = uname ∧ discriminator u = d.
Proof.
  induction k as [|k IH]; intros start H; cbn [Reference.namesakes] in H.
  - by apply elem_of_nil in H.
  - apply elem_of_cons in H as [[= -> ->]|H]; [done|]. by apply (IH _ H).
Qed.

Lemma crowded_exhausted uname : exhausted uname (Reference.crowded uname).
Proof.
  intros n Hn. unfold taken, Reference.crowded. cbn [users].
  destruct (namesakes_elem uname n (N.to_nat 9999) 1 ltac:(lia)) as [u0 Hu0].
  set (l := Reference.namesakes uname (N.to_nat 9999) 1) in *.
  destruct (list_to_map (M := gmap string User) l !! format_discriminator n)
    as [u|] eqn:E.
  - exists (format_discriminator n), u. split; [done|].
    apply elem_of_list_to_map_2 in E. by apply namesakes_tagged in E.
  - apply not_elem_of_list_to_map in E. exfalso. apply E.
    apply list_elem_of_fmap. by exists (format_discriminator n, u0).
Qed.

(** ** The discriminator resolver, continued *)

Lemma accounts_unused_remains : unused_remains "alice" Reference.accounts.
Proof.
  exists "0002". split.
  - split; [done|]. exists 2%N. split; [done|lia].
  - by apply (bool_decide_unpack _); vm_compute.
Qed.

(** C3. When a discriminator (a string of four digits from [0001] to
    [9999]) that no account with the username holds remains, and the draws
    are fair, [rollDiscriminator] returns (with enough fuel for the loop)
    a string of four decimal digits, zero-padded, that reads as a number
    from 1 to 9999 and that no account with this username holds. *)
Theorem rollDiscriminator_spec rnd uname db :
  unused_remains uname db → fair rnd →
  ∃ fuel d n,
    (∀ fuel', (fuel ≤ fuel')%nat →
       rollDiscriminator fuel' rnd uname db = Ret (d, db))
    ∧ String.length d = 4%nat
    ∧ d = padStart 4 "0" (toString n)
    ∧ digits_value d = Some n
    ∧ (1 ≤ n ≤ 9999)%N
    ∧ ¬ taken uname d db.
Proof.
  intros Hav%unused_remains_available Hfair.
  destruct (rollDiscriminator_terminates rnd uname db Hav Hfair) as (fuel & d & Hr).
  destruct (rollDiscriminator_ret _ _ _ _ _ _ (Hr fuel ltac:(lia)))
    as (_ & Hfree & j & _ & ->).
  destruct (draw_well_formed rnd j) as (Hlen & n & Hv & Hn).
  exists fuel, (draw rnd j), n. repeat split; try done; try lia.
  pose proof (random_discriminator_range (rnd j)) as Hrange.
  destruct (format_discriminator_spec _ Hrange) as [_ Hv'].
  unfold draw in *. rewrite Hv' in Hv. by injection Hv as <-.
Qed.

Lemma rollDiscriminator_spec_witness :
  unused_remains "alice" Reference.accounts ∧ fair Reference.round_robin
  ∧ ∃ fuel d n,
      (∀ fuel', (fuel ≤ fuel')%nat →
         rollDiscriminator fuel' Reference.round_robin "alice" Reference.accounts
         = Ret (d, Reference.accounts))
      ∧ String.length d = 4%nat
      ∧ d = padStart 4 "0" (toString n)
      ∧ digits_value d = Some n
      ∧ (1 ≤ n ≤ 9999)%N
      ∧ ¬ taken "alice" d Reference.accounts.
Proof.
  split; [exact accounts_unused_remains|]. split; [exact round_robin_fair|].
  exact (rollDiscriminator_spec Reference.round_robin "alice" Reference.accounts
           accounts_unused_remains round_robin_fair).
Defined.

Lemma createUser_diverges hash fuel rnd id salt uname pw db :
  exhausted uname db →
  createUser hash fuel rnd id salt uname pw db = Diverge.
Proof.
  intros Hex. unfold createUser, bind.
  by rewrite (rollDiscriminator_diverges fuel rnd uname db
                (exhausted_all_taken uname db rnd Hex)).
Qed.

(** C4. With the 9999 discriminators of a username taken, registration
    under this username does not fail with an error: whatever is drawn and
    however long the loop runs, [rollDiscriminator] has not returned, and
    the [throw] of [createUser] is never reached. *)
Theorem createUser_exhausted_diverges hash fuel rnd id salt pw :
  exhausted "alice" (Reference.crowded "alice")
  ∧ rollDiscriminator fuel rnd "alice" (Reference.crowded "alice") = Diverge
  ∧ createUser hash fuel rnd id salt "alice" pw (Reference.crowded "alice") = Diverge.
Proof.
  pose proof (crowded_exhausted "alice") as Hex.
  split; [done|]. split.
  - apply rollDiscriminator_diverges. by apply exhausted_all_taken.
  - by apply createUser_diverges.
Qed.

Lemma accounts_only_alice :
  only_account "alice" "0001" "1" Reference.alice Reference.accounts.
Proof.
  split; [by vm_compute|]. split; [done|]. split; [done|].
  intros id' u' H Hn _. unfold Reference.accounts in H. cbn [users] in H.
  apply lookup_insert_Some in H as [[<- <-]|[_ H]]; [done|].
  apply lookup_insert_Some in H as [[<- <-]|[_ H]]; [done|].
  by rewrite lookup_empty in H.
Qed.

Lemma accounts_only_carol :
  only_account "carol" "0042" "2" Reference.carol Reference.accounts.
Proof.
  split; [by vm_compute|]. split; [done|]. split; [done|].
  intros id' u' H Hn _. unfold Reference.accounts in H. cbn [users] in H.
  apply lookup_insert_Some in H as [[<- <-]|[_ H]]; [done|].
  apply lookup_insert_Some in H as [[<- <-]|[_ H]]; [done|].
  by rewrite lookup_empty in H.
Qed.

(** The header of alice with her password is accepted. *)
Lemma authenticate_spec_witness :
  authenticate Reference.compare Reference.decode
    (Some "Basic YWxpY2UjMDAwMTpzZWNyZXQ=") Reference.accounts
  = Ret (Some ("1", Reference.alice), Reference.accounts).
Proof.
  destruct (authenticate_spec Reference.compare Reference.decode
              (Some "Basic YWxpY2UjMDAwMTpzZWNyZXQ=") Reference.accounts)
    as (r & Hr & _ & H).
  rewrite Hr. f_equal. f_equal.
  destruct (H _ _ eq_refl (pieces_split " " _)) as (_ & _ & H1).
  destruct (H1 _ _ eq_refl (pieces_split ":" _)) as (_ & _ & H2).
  destruct (H2 _ _ _ eq_refl eq_refl (pieces_split "#" _)) as (_ & _ & H3).
  destruct (H3 "alice" "0001" eq_refl eq_refl) as (_ & _ & H4); try done.
  by rewrite (H4 "1" Reference.alice accounts_only_alice).
Defined.

Lemma list_ascii_of_string_app s t :
  list_ascii_of_string (s ++ t) = (list_ascii_of_string s ++ list_ascii_of_string t)%list.
Proof. induction s as [|c s IH]; simpl; [done|]. by rewrite IH. Qed.

Lemma string_app_nonempty s t : s ≠ "" → s ++ t ≠ "".
Proof. by destruct s. Qed.

(** Of a payload [name#discriminator:p1:rest], only [p1] is checked
    against the hash: the text from the second colon on is dropped. *)
Lemma authenticate_password_until_second_colon
    compare decode db creds nm disc p1 rest :
  creds ≠ "" → " "%char ∉ list_ascii_of_string creds →
  decode creds = (nm ++ "#" ++ disc) ++ ":" ++ p1 ++ ":" ++ rest →
  nm ≠ "" → disc ≠ "" → p1 ≠ "" →
  "#"%char ∉ list_ascii_of_string nm → ":"%char ∉ list_ascii_of_string nm →
  "#"%char ∉ list_ascii_of_string disc → ":"%char ∉ list_ascii_of_string disc →
  ":"%char ∉ list_ascii_of_string p1 →
  authenticate compare decode (Some ("Basic " ++ creds)) db =
    Ret (match first_user_matching nm disc db with
         | Some u => if compare p1 (password u.2) then Some u else None
         | None => None
         end, db).
Proof.
  intros Hc Hcs Hdec Hnm Hdisc Hp1 Hn1 Hn2 Hd1 Hd2 Hp.
  apply (authenticate_parsed compare decode _ db
           ["Basic"; creds] creds
           ((nm ++ "#" ++ disc) :: p1 :: split ":" rest) (nm ++ "#" ++ disc) p1
           [nm; disc] nm disc); try done.
  - split; [done|]. split; [|done].
    repeat constructor; [|done]. by apply (bool_decide_unpack _); vm_compute.
  - split.
    + rewrite Hdec. cbn [join].
      pose proof (split_nonempty ":" rest) as Hne. pose proof (join_split ":" rest) as Hj.
      destruct (split ":" rest) as [|w ws]; [done|]. by rewrite Hj.
    + split; [|done]. constructor; [|constructor; [done|apply split_no_sep]].
      rewrite !list_ascii_of_string_app. cbn.
      rewrite elem_of_app, elem_of_cons. intros [?|[[=]|?]]; done.
  - split; [done|]. split; [|done]. by repeat constructor.
  - by apply string_app_nonempty.
Qed.

(** C2. The password is not split off at the first colon only: the payload
    is cut at every colon and the piece after the first one is taken. An
    account whose password is [pa:ss] has the payload [carol#0042:pa:ss];
    its password verifies against the stored hash, and [authenticate]
    returns no account, having checked [pa]. *)
Theorem authenticate_colon_password_rejected :
  Reference.decode "Y2Fyb2wjMDA0MjpwYTpzcw==" = "carol#0042:pa:ss"
  ∧ only_account "carol" "0042" "2" Reference.carol Reference.accounts
  ∧ Reference.compare "pa:ss" (password Reference.carol) = true
  ∧ Reference.compare "pa" (password Reference.carol) = false
  ∧ authenticate Reference.compare Reference.decode
      (Some "Basic Y2Fyb2wjMDA0MjpwYTpzcw==") Reference.accounts
    = Ret (None, Reference.accounts).
Proof.
  split; [by vm_compute|]. split; [exact accounts_only_carol|].
  split; [by vm_compute|]. split; [by vm_compute|].
  change "Basic Y2Fyb2wjMDA0MjpwYTpzcw==" with ("Basic " ++ "Y2Fyb2wjMDA0MjpwYTpzcw==").
  rewrite (authenticate_password_until_second_colon
             Reference.compare Reference.decode Reference.accounts
             "Y2Fyb2wjMDA0MjpwYTpzcw==" "carol" "0042" "pa" "ss");
    [|first [done | by vm_compute | by apply (bool_decide_unpack _); vm_compute]..].
  by rewrite (first_user_matching_only _ _ _ _ _ accounts_only_carol).
Qed.

Lemma with_dave_only_dave :
  only_account "dave" "0007" "4" Sample.dave Sample.with_dave.
Proof.
  split; [by vm_compute|]. split; [done|]. split; [done|].
  intros id' u' H Hn _. unfold Sample.with_dave, Reference.accounts in H.
  cbn [users] in H.
  apply lookup_insert_Some in H as [[<- <-]|[_ H]]; [done|].
  apply lookup_insert_Some in H as [[<- <-]|[_ H]]; [done|].
  apply lookup_insert_Some in H as [[<- <-]|[_ H]]; [done|].
  by rewrite lookup_empty in H.
Qed.

(** C1. [authenticate] does not return the account exactly when the
    password verifies. The payload is cut at every colon and only the
    piece after the first one is checked (the defect of C2): for the
    payload [dave#0007:pa:ss] the password [pa:ss] does not verify against
    the stored hash of dave, whose password is [pa], and [authenticate]
    returns his account all the same. *)
Theorem authenticate_truncated_password_accepted :
  Reference.decode "ZGF2ZSMwMDA3OnBhOnNz" = "dave#0007:pa:ss"
  ∧ only_account "dave" "0007" "4" Sample.dave Sample.with_dave
  ∧ Reference.compare "pa:ss" (password Sample.dave) = false
  ∧ Reference.compare "pa" (password Sample.dave) = true
  ∧ authenticate Reference.compare Reference.decode
      (Some "Basic ZGF2ZSMwMDA3OnBhOnNz") Sample.with_dave
    = Ret (Some ("4", Sample.dave), Sample.with_dave).
Proof.
  split; [by vm_compute|]. split; [exact with_dave_only_dave|].
  split; [by vm_compute|]. split; [by vm_compute|].
  change "Basic ZGF2ZSMwMDA3OnBhOnNz" with ("Basic " ++ "ZGF2ZSMwMDA3OnBhOnNz").
  rewrite (authenticate_password_until_second_colon
             Reference.compare Reference.decode Sample.with_dave
             "ZGF2ZSMwMDA3OnBhOnNz" "dave" "0007" "pa" "ss");
    [|first [by vm_compute | by apply (bool_decide_unpack _); vm_compute | done]..].
  by rewrite (first_user_matching_only _ _ _ _ _ with_dave_only_dave).
Qed.

(** ** Servers and membership *)

Lemma foldr_max_ge k ks x : x ∈ k :: ks → (x ≤ foldr Z.max k ks)%Z.
Proof.
  induction ks as [|y ks IH]; simpl.
  - intros ->%list_elem_of_singleton. lia.
  - intros [->|[->|H]%elem_of_cons]%elem_of_cons.
    + assert (k ≤ foldr Z.max k ks)%Z by (apply IH; by left). lia.
    + lia.
    + assert (x ≤ foldr Z.max k ks)%Z by (apply IH; by right). lia.
Qed.

Lemma foldr_max_elem k ks : foldr Z.max k ks ∈ k :: ks.
Proof.
  induction ks as [|y ks IH]; simpl; [by left|].
  destruct (Z.max_spec y (foldr Z.max k ks)) as [[_ ->]|[_ ->]].
  - apply elem_of_cons in IH as [->|IH]; [by left|by do 2 right].
  - right. by left.
Qed.

Lemma elem_of_table_keys `{Countable K} {V} (t : gmap K V) k :
  k ∈ (table_docs t).*1 ↔ is_Some (t !! k).
Proof.
  unfold table_docs. rewrite list_elem_of_fmap. split.
  - intros ([k' v] & -> & Hkv). apply elem_of_map_to_list in Hkv. by exists v.
  - intros [v Hv]. exists (k, v). split; [done|]. by apply elem_of_map_to_list.
Qed.

(** The largest id, with 0 for an empty table, makes the next id. *)
Lemma largest_id_next db :
  ∃ m, try_catch table_max_id (λ _, ret 0%Z) db = Ret (m, db)
       ∧ next_server_id (m + 1) db.
Proof.
  unfold try_catch, table_max_id, next_server_id.
  destruct ((table_docs (servers_table db)).*1) as [|k ks] eqn:E.
  - exists 0%Z. split; [done|]. left. split; [|done].
    apply fmap_nil_inv in E. by apply map_to_list_empty_iff in E.
  - exists (foldr Z.max k ks). split; [done|]. right.
    replace (foldr Z.max k ks + 1 - 1)%Z with (foldr Z.max k ks) by lia.
    split.
    + apply elem_of_table_keys. rewrite E. apply foldr_max_elem.
    + intros k' Hk'. apply elem_of_table_keys in Hk'. rewrite E in Hk'.
      by apply foldr_max_ge.
Qed.

Lemma next_server_id_fresh id db :
  next_server_id id db → servers_table db !! id = None.
Proof.
  intros [[-> _]|[_ Hmax]]; [apply lookup_empty|].
  destruct (servers_table db !! id) eqn:E; [|done].
  assert (id ≤ id - 1)%Z by (apply Hmax; eauto). lia.
Qed.

Lemma next_server_id_unique id id' db :
  next_server_id id db → next_server_id id' db → id = id'.
Proof.
  intros [[He ->]|[Hs Hmax]] [[He' ->]|[Hs' Hmax']]; try done.
  - rewrite He in Hs'. rewrite lookup_empty in Hs'. by destruct Hs'.
  - rewrite He' in Hs. rewrite lookup_empty in Hs. by destruct Hs.
  - apply Hmax in Hs'. apply Hmax' in Hs. lia.
Qed.

Lemma addMemberToServer_noop uid id db :
  (users db !! uid = None ∨ servers_table db !! id = None
   ∨ ∃ u, users db !! uid = Some u ∧ id ∈ servers u) →
  addMemberToServer uid id db = Ret (tt, db).
Proof.
  unfold addMemberToServer, bind, gets, ret.
  intros [->|[->|(u & -> & Hin)]]; [done|by destruct (users db !! uid)|].
  destruct (servers_table db !! id); [|done].
  by rewrite bool_decide_eq_true_2.
Qed.

Lemma addMemberToServer_joins uid id db u :
  users db !! uid = Some u → is_Some (servers_table db !! id) → id ∉ servers u →
  addMemberToServer uid id db
  = Ret (tt, set_users (<[uid := with_servers (servers u ++ [id])%list u]>) db).
Proof.
  unfold addMemberToServer, bind, gets, ret, modify, table_update.
  intros Hu [s Hs] Hnin. rewrite Hu, Hs, bool_decide_eq_false_2 by done.
  do 2 f_equal. unfold set_users. f_equal.
  apply map_eq. intros k. rewrite lookup_alter, lookup_insert.
  destruct (decide (uid = k)) as [<-|]; [|done]. by rewrite Hu.
Qed.

Lemma createServer_unfold nm icon own db :
  ∃ id, next_server_id id db
  ∧ createServer nm icon own db
    = (addMemberToServer own id;;; gets (getServer id))
        (set_servers (<[id := mkServer nm icon own]>) db).
Proof.
  destruct (largest_id_next db) as (m & Hm & Hnext).
  exists (m + 1)%Z. split; [done|].
  unfold createServer. unfold bind at 1. rewrite Hm.
  unfold bind at 1. unfold modify at 1. unfold set_servers, table_insert.
  by rewrite (next_server_id_fresh _ _ Hnext).
Qed.

Lemma elem_of_getUsersInServer id db m :
  m ∈ getUsersInServer id db
  ↔ ∃ uid u, users db !! uid = Some u ∧ id ∈ servers u ∧ m = to_member (uid, u).
Proof.
  unfold getUsersInServer, table_docs. rewrite list_elem_of_fmap. split.
  - intros ([uid u] & -> & H). apply list_elem_of_filter in H as [Hin H].
    apply elem_of_map_to_list in H. by exists uid, u.
  - intros (uid & u & Hu & Hin & ->). exists (uid, u). split; [done|].
    apply list_elem_of_filter. split; [done|]. by apply elem_of_map_to_list.
Qed.

Lemma getUsersInServer_nil id db :
  (∀ uid u, users db !! uid = Some u → id ∉ servers u) →
  getUsersInServer id db = [].
Proof.
  intros Hno. destruct (getUsersInServer id db) as [|m l] eqn:E; [done|].
  assert (m ∈ getUsersInServer id db) as Hm by (rewrite E; by left).
  apply elem_of_getUsersInServer in Hm as (uid & u & Hu & Hin & _).
  by destruct (Hno uid u Hu).
Qed.

Lemma with_servers_id u : with_servers (servers u) u = u.
Proof. by destruct u. Qed.

(** C5. For an owner who has an account, [createServer] gives the new
    server the largest server id plus one, and the id 1 when there is no
    server; it stores the record, adds the owner as a member, and returns
    the server joined with its members. The members are the accounts
    whose membership list has the id, each with its id, username,
    discriminator, avatar, presence and admin flag; the owner is one of
    them, and the id of the server is in the membership list of the
    owner. *)
Theorem createServer_spec nm icon own db u :
  users db !! own = Some u →
  ∃ id db' u' ms,
    createServer nm icon own db
    = Ret (Some (mkJoinedServer id nm icon own ms), db')
    ∧ next_server_id id db
    ∧ servers_table db' !! id = Some (mkServer nm icon own)
    ∧ (∀ k, k ≠ id → servers_table db' !! k = servers_table db !! k)
    ∧ invites db' = invites db
    ∧ users db' !! own = Some u'
    ∧ id ∈ servers u'
    ∧ (id ∉ servers u → u' = with_servers (servers u ++ [id])%list u)
    ∧ (id ∈ servers u → u' = u)
    ∧ (∀ k, k ≠ own → users db' !! k = users db !! k)
    ∧ mkMember own (username u) (discriminator u) (avatarUrl u) (online u) (admin u)
      ∈ ms
    ∧ (∀ m, m ∈ ms
            ↔ ∃ uid v, users db' !! uid = Some v ∧ id ∈ servers v
                ∧ m = mkMember uid (username v) (discriminator v) (avatarUrl v)
                               (online v) (admin v))
    ∧ getServer id db' = Some (mkJoinedServer id nm icon own ms).
Proof.
  intros Hu. destruct (createServer_unfold nm icon own db) as (id & Hnext & Hrun).
  set (db1 := set_servers (<[id := mkServer nm icon own]>) db) in *.
  assert (servers_table db1 !! id = Some (mkServer nm icon own)) as Hs1
    by apply lookup_insert_eq.
  exists id.
  destruct (decide (id ∈ servers u)) as [Hin|Hnin].
  - exists db1, u, (getUsersInServer id db1). rewrite Hrun. unfold bind at 1.
    rewrite addMemberToServer_noop by (right; right; by exists u).
    unfold gets, getServer. rewrite Hs1. cbn [name iconUrl owner].
    split; [done|]. split; [done|]. split; [done|].
    split. { intros k Hk. by apply lookup_insert_ne. }
    split; [done|]. split; [done|]. split; [done|]. split; [done|].
    split; [done|]. split; [done|].
    split. { apply elem_of_getUsersInServer. by exists own, u. }
    split; [|done]. intros m. apply elem_of_getUsersInServer.
  - set (u' := with_servers (servers u ++ [id])%list u).
    exists (set_users (<[own := u']>) db1), u',
      (getUsersInServer id (set_users (<[own := u']>) db1)).
    rewrite Hrun. unfold bind at 1.
    rewrite (addMemberToServer_joins own id db1 u) by (done || by eexists).
    fold u'. unfold gets, getServer. cbn [servers_table set_users].
    fold (servers_table db1). rewrite Hs1. cbn [name iconUrl owner].
    assert (id ∈ servers u') as Hin'.
    { unfold u'. cbn. apply elem_of_app. right. by left. }
    split; [done|]. split; [done|]. split; [done|].
    split. { intros k Hk. by apply lookup_insert_ne. }
    split; [done|]. split; [apply lookup_insert_eq|]. split; [done|].
    split; [done|]. split; [done|].
    split. { intros k Hk. cbn. by apply lookup_insert_ne. }
    split. { apply elem_of_getUsersInServer. exists own, u'.
             split; [apply lookup_insert_eq|done]. }
    split; [|done]. intros m. apply elem_of_getUsersInServer.
Qed.

Lemma createServer_spec_witness :
  ∃ id db' u' ms,
    createServer "Guild" Null "1" Reference.accounts
    = Ret (Some (mkJoinedServer id "Guild" Null "1" ms), db')
    ∧ id = 1%Z
    ∧ users db' !! "1" = Some u'
    ∧ id ∈ servers u'
    ∧ mkMember "1" "alice" "0001" Undefined false Undefined ∈ ms.
Proof.
  destruct (createServer_spec "Guild" Null "1" Reference.accounts Reference.alice)
    as (id & db' & u' & ms & Hrun & Hnext & _ & _ & _ & Hu' & Hin & _ & _ & _ & Hm & _).
  { by vm_compute. }
  exists id, db', u', ms. repeat split; try done.
  destruct Hnext as [[_ ->]|[[s Hs] _]]; [done|].
  unfold Reference.accounts in Hs. cbn [servers_table] in Hs. by rewrite lookup_empty in Hs.
Defined.

(** C6. [addMemberToServer] (joinMember) is idempotent. It changes nothing
    when the user or the server does not exist or the server id is in the
    membership list of the user already; otherwise it appends the id, once,
    to this list and leaves the rest as it is. Run a second time with the
    same arguments it changes nothing, and a list without duplicates stays
    without duplicates. *)
Theorem addMemberToServer_idempotent uid id db :
  ∃ db', addMemberToServer uid id db = Ret (tt, db')
  ∧ ((users db !! uid = None ∨ servers_table db !! id = None
      ∨ ∃ u, users db !! uid = Some u ∧ id ∈ servers u) → db' = db)
  ∧ (∀ u, users db !! uid = Some u → is_Some (servers_table db !! id) →
          id ∉ servers u →
          users db' !! uid = Some (with_servers (servers u ++ [id])%list u))
  ∧ (∀ k, k ≠ uid → users db' !! k = users db !! k)
  ∧ servers_table db' = servers_table db
  ∧ invites db' = invites db
  ∧ addMemberToServer uid id db' = Ret (tt, db')
  ∧ (∀ u u', users db !! uid = Some u → users db' !! uid = Some u' →
             NoDup (servers u) → NoDup (servers u')).
Proof.
  destruct (users db !! uid) as [u|] eqn:Hu.
  2:{ exists db. rewrite addMemberToServer_noop by auto.
      repeat split; try done; intros; simplify_eq. }
  destruct (servers_table db !! id) as [s|] eqn:Hs.
  2:{ exists db. rewrite addMemberToServer_noop by auto.
      repeat split; try done; intros; simplify_eq; try done;
        by destruct select (is_Some None). }
  destruct (decide (id ∈ servers u)) as [Hin|Hnin].
  { exists db. rewrite addMemberToServer_noop by (right; right; by exists u).
    repeat split; try done; intros; by simplify_eq. }
  set (u1 := with_servers (servers u ++ [id])%list u).
  exists (set_users (<[uid := u1]>) db).
  rewrite (addMemberToServer_joins uid id db u) by (done || by eexists).
  fold u1. split; [done|]. split.
  { intros [?|[?|(u0 & ? & ?)]]; congruence. }
  split. { intros u0 [= <-] _ _. apply lookup_insert_eq. }
  split. { intros k Hk. cbn. by apply lookup_insert_ne. }
  split; [done|]. split; [done|]. split.
  - apply addMemberToServer_noop. right. right. exists u1.
    split; [apply lookup_insert_eq|]. cbn. apply elem_of_app. right. by left.
  - intros u0 u' [= <-] Hu' Hnd. cbn in Hu'. rewrite lookup_insert_eq in Hu'.
    injection Hu' as <-. cbn. apply NoDup_app. split; [done|]. split.
    + intros x Hx ->%list_elem_of_singleton. done.
    + apply NoDup_singleton.
Qed.

Lemma list_difference_singleton (l : list Z) id :
  list_difference l [id] = filter (λ x, x ≠ id) l.
Proof.
  induction l as [|x l IH]; [done|]. cbn [list_difference].
  rewrite filter_cons, IH.
  destruct (decide_rel elem_of x [id]) as [H|H], (decide (x ≠ id)) as [H'|H'];
    try done.
  - by apply list_elem_of_singleton in H.
  - exfalso. apply H. apply list_elem_of_singleton. by apply dec_stable.
Qed.

Lemma filter_absent (l : list Z) id : id ∉ l → filter (λ x, x ≠ id) l = l.
Proof.
  induction l as [|x l IH]; intros Hnin; [done|].
  rewrite filter_cons, decide_True.
  - f_equal. apply IH. intros H. apply Hnin. by right.
  - intros ->. apply Hnin. by left.
Qed.

(** What [deleteServer] writes to an account. *)
Lemma strip_server id u :
  (if bool_decide (id ∈ servers u) then difference_server id u else u)
  = with_servers (filter (λ x, x ≠ id) (servers u)) u.
Proof.
  case_bool_decide as Hin.
  - unfold difference_server, apply_update, with_servers. cbn.
    by rewrite list_difference_singleton.
  - rewrite filter_absent by done. by rewrite with_servers_id.
Qed.

Lemma deleteServer_unfold id db :
  deleteServer id db
  = Ret (tt, mkDb ((λ u, with_servers (filter (λ x, x ≠ id) (servers u)) u)
                     <$> users db)
                  (delete id (servers_table db))
                  (filter (λ d, serverId d.2 ≠ id) (invites db))).
Proof.
  unfold deleteServer, bind, modify, set_users, set_servers, set_invites. cbn.
  do 3 f_equal. apply map_fmap_ext. intros uid u _. apply strip_server.
Qed.

(** C7. [deleteServer] removes the record of the server, every invite
    whose [serverId] is its id, and its id from every membership list;
    afterwards no membership list has the id and no invite refers to it.
    The other servers and invites, and the rest of every account, stay as
    they are. *)
Theorem deleteServer_spec id db :
  ∃ db', deleteServer id db = Ret (tt, db')
  ∧ servers_table db' !! id = None
  ∧ (∀ k, k ≠ id → servers_table db' !! k = servers_table db !! k)
  ∧ (∀ code inv, invites db' !! code = Some inv
                 ↔ invites db !! code = Some inv ∧ serverId inv ≠ id)
  ∧ (∀ uid, users db' !! uid
            = (λ u, with_servers (filter (λ x, x ≠ id) (servers u)) u)
                <$> users db !! uid)
  ∧ (∀ uid u', users db' !! uid = Some u' → id ∉ servers u')
  ∧ (∀ code inv, invites db' !! code = Some inv → serverId inv ≠ id).
Proof.
  eexists. split; [apply deleteServer_unfold|]. cbn.
  split; [apply lookup_delete_eq|].
  split. { intros k Hk. by apply lookup_delete_ne. }
  split. { intros code inv. by rewrite map_lookup_filter_Some. }
  split. { intros uid. apply lookup_fmap. }
  split.
  - intros uid u'. rewrite lookup_fmap. destruct (users db !! uid) as [u|]; [|done].
    intros [= <-]. cbn. by intros [H _]%list_elem_of_filter.
  - intros code inv [_ H]%map_lookup_filter_Some. done.
Qed.

(** ** Accounts *)

Lemma createUser_ret hash fuel rnd id salt uname pw db tag db' :
  createUser hash fuel rnd id salt uname pw db = Ret (tag, db') →
  ∃ d, rollDiscriminator fuel rnd uname db = Ret (d, db)
       ∧ tag = uname ++ "#" ++ d
       ∧ db' = set_users (table_insert id
                 (mkUser uname d (hash pw salt) Undefined [] false Undefined)) db.
Proof.
  unfold createUser, bind. intros H.
  destruct (rollDiscriminator fuel rnd uname db) as [[d db0]| |] eqn:E; try done.
  pose proof (rollDiscriminator_ret _ _ _ _ _ _ E) as (-> & _).
  exists d. split; [done|].
  destruct (negb (truthy (Some d))); [done|].
  cbn in H. by injection H as <- <-.
Qed.

Lemma updateUser_run hash fuel rnd salt id uname pw avatar adm db d :
  rollDiscriminator fuel rnd uname db = Ret (d, db) →
  updateUser hash fuel rnd salt id uname pw avatar adm db
  = Ret (uname ++ "#" ++ d,
         set_users (alter (updated_account hash salt uname d pw avatar adm) id) db).
Proof.
  intros Hroll. unfold updateUser, bind at 1. rewrite Hroll.
  unfold bind, modify, ret, table_update, set_users. do 3 f_equal.
  apply alter_ext. intros u _.
  by destruct pw as [| |[|c p]], avatar, adm.
Qed.

Lemma updateUser_ret hash fuel rnd salt id uname pw avatar adm db tag db' :
  updateUser hash fuel rnd salt id uname pw avatar adm db = Ret (tag, db') →
  ∃ d, rollDiscriminator fuel rnd uname db = Ret (d, db)
       ∧ tag = uname ++ "#" ++ d
       ∧ db' = set_users (alter (updated_account hash salt uname d pw avatar adm) id) db.
Proof.
  intros H.
  destruct (rollDiscriminator fuel rnd uname db) as [[d db0]| |] eqn:E.
  - pose proof (rollDiscriminator_ret _ _ _ _ _ _ E) as (-> & _).
    rewrite (updateUser_run _ _ _ _ _ _ _ _ _ _ _ E) in H.
    injection H as <- <-. by exists d.
  - unfold updateUser, bind at 1 in H. by rewrite E in H.
  - unfold updateUser, bind at 1 in H. by rewrite E in H.
Qed.

(** X28. [updateUser] when a discriminator remains unused for the username
    and the draws are fair: it returns (with enough fuel for the loop) the
    tag [username#discriminator] of a discriminator drawn anew, free among
    the accounts with this username and so different from the one the
    account had when the username is kept. The hash is replaced only for
    a password that is supplied (a nonempty string), [avatarUrl] is
    written for [null] and for a string and kept when omitted, [admin] is
    written for [true] and [false] only, and the membership list, the
    presence and the other accounts, the servers and the invites keep
    their values. *)
Theorem updateUser_spec hash rnd salt id uname pw avatar adm db :
  unused_remains uname db → fair rnd →
  ∃ fuel d db',
    (∀ fuel', (fuel ≤ fuel')%nat →
       updateUser hash fuel' rnd salt id uname pw avatar adm db
       = Ret (uname ++ "#" ++ d, db'))
    ∧ is_discriminator d
    ∧ ¬ taken uname d db
    ∧ (∀ u, users db !! id = Some u → username u = uname → discriminator u ≠ d)
    ∧ (users db !! id = None → users db' !! id = None)
    ∧ (∀ u, users db !! id = Some u →
         ∃ u', users db' !! id = Some u'
           ∧ username u' = uname
           ∧ discriminator u' = d
           ∧ (∀ p, pw = Val p → p ≠ "" → password u' = hash p salt)
           ∧ (pw = Undefined ∨ pw = Null ∨ pw = Val "" → password u' = password u)
           ∧ (avatar = Undefined → avatarUrl u' = avatarUrl u)
           ∧ (avatar ≠ Undefined → avatarUrl u' = avatar)
           ∧ (∀ b, adm = Val b → admin u' = Val b)
           ∧ (adm = Undefined ∨ adm = Null → admin u' = admin u)
           ∧ servers u' = servers u
           ∧ online u' = online u)
    ∧ (∀ k, k ≠ id → users db' !! k = users db !! k)
    ∧ servers_table db' = servers_table db
    ∧ invites db' = invites db.
Proof.
  intros Hav%unused_remains_available Hfair.
  destruct (rollDiscriminator_terminates rnd uname db Hav Hfair) as (fuel & d & Hr).
  destruct (rollDiscriminator_ret _ _ _ _ _ _ (Hr fuel ltac:(lia)))
    as (_ & Hfree & j & _ & Hdraw).
  exists fuel, d. eexists. split.
  { intros fuel' Hle. apply updateUser_run. by apply Hr. }
  split. { rewrite Hdraw. apply draw_well_formed. }
  split; [done|]. split.
  { intros u Hu Hn Hd. apply Hfree. by exists id, u. }
  cbn. split. { intros Hu. by rewrite lookup_alter_eq, Hu. }
  split.
  { intros u Hu. eexists. split; [by rewrite lookup_alter_eq, Hu|]. cbn.
    repeat split; try done.
    - intros p -> Hp. by destruct p.
    - by intros [->|[->| ->]].
    - by intros ->.
    - by destruct avatar.
    - by intros b ->.
    - by intros [->| ->]. }
  split; [|done]. intros k Hk. by apply lookup_alter_ne.
Qed.

Lemma updateUser_spec_witness :
  ∃ fuel d db',
    (∀ fuel', (fuel ≤ fuel')%nat →
       updateUser Reference.hash fuel' Reference.round_robin 3 "1" "alice"
         Undefined Null (Val true) Reference.accounts
       = Ret ("alice" ++ "#" ++ d, db'))
    ∧ ¬ taken "alice" d Reference.accounts
    ∧ ∃ u', users db' !! "1" = Some u'
        ∧ discriminator u' ≠ "0001"
        ∧ password u' = password Reference.alice
        ∧ avatarUrl u' = Null
        ∧ admin u' = Val true.
Proof.
  destruct (updateUser_spec Reference.hash Reference.round_robin 3 "1" "alice"
              Undefined Null (Val true) Reference.accounts
              accounts_unused_remains round_robin_fair)
    as (fuel & d & db' & Hrun & _ & Hfree & Hdiff & _ & Hu & _).
  destruct (Hu Reference.alice ltac:(by vm_compute))
    as (u' & Hu' & _ & Hd & _ & Hpw & _ & Hav & Hadm & _).
  exists fuel, d, db'. split; [done|]. split; [done|].
  exists u'. split; [done|]. split.
  - rewrite Hd. intros Heq.
    apply (Hdiff Reference.alice); [by vm_compute|done|by rewrite Heq].
  - split; [by apply Hpw; left|]. split; [by apply Hav|by apply Hadm].
Defined.

Lemma updateUser_diverges hash fuel rnd salt id uname pw avatar adm db :
  exhausted uname db →
  updateUser hash fuel rnd salt id uname pw avatar adm db = Diverge.
Proof.
  intros Hex. unfold updateUser, bind at 1.
  by rewrite (rollDiscriminator_diverges fuel rnd uname db
                (exhausted_all_taken uname db rnd Hex)).
Qed.

(** C8. [updateUser] does not return a tag for every update. With the
    9999 discriminators of the username taken, the loop of
    [rollDiscriminator] has no way out (the defect of C4): whatever is
    drawn and however long the loop runs, [updateUser] has not returned,
    nothing is written, and nothing is thrown. *)
Theorem updateUser_exhausted_diverges hash fuel rnd salt id pw avatar adm :
  exhausted "alice" (Reference.crowded "alice")
  ∧ updateUser hash fuel rnd salt id "alice" pw avatar adm (Reference.crowded "alice")
    = Diverge.
Proof.
  pose proof (crowded_exhausted "alice") as Hex.
  split; [done|]. by apply updateUser_diverges.
Qed.

(** ** Histories *)

Lemma lookup_alter_account (f : User → User) k (m : gmap string User) uid u :
  alter f k m !! uid = Some u →
  ∃ u0, m !! uid = Some u0 ∧ (u = u0 ∨ u = f u0).
Proof.
  intros [[_ (u0 & Hu0 & ->)]|[_ Hu]]%lookup_alter_Some; eauto.
Qed.

(** Membership lists refer to servers in every database that the
    operations build. *)
Lemma run_op_consistent hash op db db' :
  run_op hash op db = Ret (tt, db') →
  membership_consistent db → membership_consistent db'.
Proof.
  intros Hrun Hc. destruct op; cbn [run_op] in Hrun.
  - unfold bind at 1 in Hrun.
    destruct (createUser _ _ _ _ _ _ _ db) as [[tag db1]| |] eqn:E; try done.
    injection Hrun as <-. apply createUser_ret in E as (d & _ & _ & ->).
    intros uid u sid. cbn. unfold table_insert.
    destruct (users db !! id) eqn:Hid; [intros; by eapply Hc|].
    intros [[<- <-]|[_ Hu]]%lookup_insert_Some; [by intros ?%elem_of_nil|].
    (intros; by eapply Hc).
  - unfold bind at 1 in Hrun.
    destruct (updateUser _ _ _ _ _ _ _ _ _ db) as [[tag db1]| |] eqn:E; try done.
    injection Hrun as <-. apply updateUser_ret in E as (d & _ & _ & ->).
    intros uid u sid. cbn.
    intros (u0 & Hu0 & [->| ->])%lookup_alter_account; cbn; (intros; by eapply Hc).
  - injection Hrun as <-. intros uid u sid. cbn.
    intros [_ Hu]%lookup_delete_Some. (intros; by eapply Hc).
  - unfold updatePresenceOf, try_catch, modify in Hrun. injection Hrun as <-.
    intros uid u sid. cbn. unfold table_update.
    intros (u0 & Hu0 & [->| ->])%lookup_alter_account; cbn; (intros; by eapply Hc).
  - injection Hrun as <-. intros uid u sid. cbn.
    rewrite lookup_fmap. destruct (users db !! uid) as [u0|] eqn:Hu0; [|done].
    intros [= <-]. cbn. (intros; by eapply Hc).
  - unfold bind at 1 in Hrun.
    destruct (createServer_unfold nm icon own db) as (sid' & Hnext & Hcs).
    rewrite Hcs in Hrun. clear Hcs.
    set (db1 := set_servers (<[sid' := mkServer nm icon own]>) db) in *.
    assert (membership_consistent db1) as Hc1.
    { intros uid u sid Hu Hin. cbn. apply lookup_insert_is_Some'. right.
      by apply (Hc uid u). }
    unfold bind at 1 in Hrun.
    destruct (users db1 !! own) as [u|] eqn:Hu.
    2:{ rewrite addMemberToServer_noop in Hrun by auto. by injection Hrun as <-. }
    destruct (decide (sid' ∈ servers u)) as [Hin|Hnin].
    { rewrite addMemberToServer_noop in Hrun by (right; right; by exists u).
      by injection Hrun as <-. }
    assert (is_Some (servers_table db1 !! sid')) as Hs1.
    { unfold db1. cbn. rewrite lookup_insert_eq. by eexists. }
    rewrite (addMemberToServer_joins own sid' db1 u) in Hrun by done.
    injection Hrun as <-. intros uid u' sid. cbn.
    fold (servers_table db1).
    intros [[<- <-]|[_ Hu']]%lookup_insert_Some; [|intros; by eapply Hc1].
    cbn. intros [Hin| ->%list_elem_of_singleton]%elem_of_app.
    + by apply (Hc1 own u).
    + done.
  - unfold updateServer, modify in Hrun. injection Hrun as <-.
    intros uid u sid Hu Hin. cbn. unfold table_update.
    apply lookup_alter_is_Some. by apply (Hc uid u).
  - destruct (users db !! uid) as [u|] eqn:Hu.
    2:{ rewrite addMemberToServer_noop in Hrun by auto. by injection Hrun as <-. }
    destruct (servers_table db !! id) as [s|] eqn:Hs.
    2:{ rewrite addMemberToServer_noop in Hrun by auto. by injection Hrun as <-. }
    destruct (decide (id ∈ servers u)) as [Hin|Hnin].
    { rewrite addMemberToServer_noop in Hrun by (right; right; by exists u).
      by injection Hrun as <-. }
    rewrite (addMemberToServer_joins uid id db u) in Hrun by (done || by eexists).
    injection Hrun as <-. intros uid' u' sid. cbn.
    intros [[<- <-]|[_ Hu']]%lookup_insert_Some; [|intros; by eapply Hc].
    cbn. intros [Hin| ->%list_elem_of_singleton]%elem_of_app.
    + by apply (Hc uid u).
    + by eexists.
  - unfold removeMemberFromServer, modify in Hrun. injection Hrun as <-.
    intros uid' u sid. cbn. unfold table_update.
    intros (u0 & Hu0 & [->| ->])%lookup_alter_account; cbn; [intros; by eapply Hc|].
    intros [Hin _]%list_elem_of_difference. by apply (Hc uid' u0).
  - rewrite deleteServer_unfold in Hrun. injection Hrun as <-.
    intros uid u sid. cbn. rewrite lookup_fmap.
    destruct (users db !! uid) as [u0|] eqn:Hu0; [|done].
    intros [= <-]. cbn. intros [Hne Hin]%list_elem_of_filter.
    rewrite lookup_delete_ne by done. by apply (Hc uid u0).
  - unfold generateInvite, bind, modify, ret in Hrun. injection Hrun as <-.
    intros uid u k. cbn. (intros; by eapply Hc).
Qed.

Lemma run_ops_cons hash op ops db db' :
  run_ops hash (op :: ops) db = Ret (tt, db') →
  ∃ db1, run_op hash op db = Ret (tt, db1) ∧ run_ops hash ops db1 = Ret (tt, db').
Proof.
  cbn [run_ops]. unfold bind at 1.
  destruct (run_op hash op db) as [[[] db1]| |]; try done. by exists db1.
Qed.

Lemma run_ops_app hash ops : ∀ ops' db db1,
  run_ops hash ops db = Ret (tt, db1) →
  run_ops hash (ops ++ ops')%list db = run_ops hash ops' db1.
Proof.
  induction ops as [|op ops IH]; intros ops' db db1 Hrun.
  - by injection Hrun as <-.
  - apply run_ops_cons in Hrun as (db2 & H1 & Hrest).
    cbn [app run_ops]. unfold bind at 1. rewrite H1. by apply IH.
Qed.

Lemma addMemberToServer_frame uid id db :
  ∃ db', addMemberToServer uid id db = Ret (tt, db')
         ∧ servers_table db' = servers_table db ∧ invites db' = invites db.
Proof.
  destruct (users db !! uid) as [u|] eqn:Hu.
  2:{ exists db. by rewrite addMemberToServer_noop by auto. }
  destruct (servers_table db !! id) as [s|] eqn:Hs.
  2:{ exists db. by rewrite addMemberToServer_noop by auto. }
  destruct (decide (id ∈ servers u)) as [Hin|Hnin].
  { exists db. by rewrite addMemberToServer_noop by (right; right; by exists u). }
  eexists. by rewrite (addMemberToServer_joins uid id db u) by (done || by eexists).
Qed.

Lemma run_ops_consistent hash ops : ∀ db db',
  run_ops hash ops db = Ret (tt, db') →
  membership_consistent db → membership_consistent db'.
Proof.
  induction ops as [|op ops IH]; intros db db' Hrun Hc.
  - by injection Hrun as <-.
  - apply run_ops_cons in Hrun as (db1 & H1 & Hrest).
    apply (IH _ _ Hrest). by apply (run_op_consistent hash op db).
Qed.

Lemma reachable_consistent hash db :
  reachable hash db → membership_consistent db.
Proof.
  intros [ops Hrun]. apply (run_ops_consistent hash ops _ _ Hrun).
  intros uid u sid Hu. cbn in Hu. by rewrite lookup_empty in Hu.
Qed.

(** C10. For an owner id without an account, [createServer] still stores
    the server and returns it joined with its members: the join of the
    owner writes nothing, the members list is empty, and the owner of the
    stored server is not among its members. *)
Theorem createServer_missing_owner hash nm icon own db :
  reachable hash db → users db !! own = None →
  ∃ id db',
    createServer nm icon own db
    = Ret (Some (mkJoinedServer id nm icon own []), db')
    ∧ next_server_id id db
    ∧ servers_table db' !! id = Some (mkServer nm icon own)
    ∧ (∀ k, k ≠ id → servers_table db' !! k = servers_table db !! k)
    ∧ users db' = users db
    ∧ invites db' = invites db
    ∧ getServer id db' = Some (mkJoinedServer id nm icon own [])
    ∧ isInServer own id db' = false
    ∧ ¬ ∃ m, m ∈ getUsersInServer id db' ∧ member_id m = own.
Proof.
  intros Hreach Hown. pose proof (reachable_consistent hash db Hreach) as Hc.
  destruct (createServer_unfold nm icon own db) as (id & Hnext & Hrun).
  set (db1 := set_servers (<[id := mkServer nm icon own]>) db) in *.
  assert (getUsersInServer id db1 = []) as Hnil.
  { apply getUsersInServer_nil. intros uid u Hu Hin.
    destruct (Hc uid u id Hu Hin) as [s Hs].
    by rewrite (next_server_id_fresh _ _ Hnext) in Hs. }
  assert (getServer id db1 = Some (mkJoinedServer id nm icon own [])) as Hget.
  { unfold getServer. rewrite Hnil. unfold db1. cbn. by rewrite lookup_insert_eq. }
  exists id, db1. rewrite Hrun. unfold bind at 1.
  rewrite addMemberToServer_noop by auto. unfold gets. rewrite Hget.
  repeat split; try done.
  - apply lookup_insert_eq.
  - intros k Hk. by apply lookup_insert_ne.
  - unfold isInServer. change (users db1) with (users db). by rewrite Hown.
  - rewrite Hnil. intros (m & Hm & _). by apply elem_of_nil in Hm.
Qed.

Lemma empty_db_reachable hash : reachable hash empty_db.
Proof. by exists []. Qed.

Lemma createServer_missing_owner_witness :
  ∃ db',
    createServer "Guild" Null "ghost" empty_db
    = Ret (Some (mkJoinedServer 1 "Guild" Null "ghost" []), db')
    ∧ servers_table db' !! 1%Z = Some (mkServer "Guild" Null "ghost")
    ∧ users db' = ∅.
Proof.
  destruct (createServer_missing_owner Reference.hash "Guild" Null "ghost" empty_db
              (empty_db_reachable Reference.hash) (lookup_empty _))
    as (id & db' & Hrun & Hnext & Hs & _ & Hu & _).
  assert (id = 1%Z) as ->.
  { destruct Hnext as [[_ ->]|[[s Hs'] _]]; [done|].
    cbn in Hs'. by rewrite lookup_empty in Hs'. }
  by exists db'.
Defined.

(** ** Invites *)

Lemma generateInvite_fresh invite sid by_user db :
  invites db !! invite = None →
  generateInvite invite sid by_user db
  = Ret (invite, set_invites (<[invite := mkInvite sid by_user]>) db).
Proof.
  intros Hfresh. unfold generateInvite, bind, modify, ret, set_invites, table_insert.
  by rewrite Hfresh.
Qed.

(** An invite in the table has been put there by [generateInvite]. *)
Lemma run_op_invites hash op db db' code :
  run_op hash op db = Ret (tt, db') →
  is_Some (invites db' !! code) →
  is_Some (invites db !! code) ∨ code ∈ generated_codes [op].
Proof.
  intros Hrun Hcode. destruct op; cbn [run_op generated_codes] in *.
  - unfold bind at 1 in Hrun.
    destruct (createUser _ _ _ _ _ _ _ db) as [[tag db1]| |] eqn:E; try done.
    injection Hrun as <-. apply createUser_ret in E as (d & _ & _ & ->). by left.
  - unfold bind at 1 in Hrun.
    destruct (updateUser _ _ _ _ _ _ _ _ _ db) as [[tag db1]| |] eqn:E; try done.
    injection Hrun as <-. apply updateUser_ret in E as (d & _ & _ & ->). by left.
  - injection Hrun as <-. by left.
  - unfold updatePresenceOf, try_catch, modify in Hrun. injection Hrun as <-. by left.
  - injection Hrun as <-. by left.
  - unfold bind at 1 in Hrun.
    destruct (createServer_unfold nm icon own db) as (sid' & _ & Hcs).
    rewrite Hcs in Hrun. clear Hcs. unfold bind at 1 in Hrun.
    match type of Hrun with
    | context [addMemberToServer ?a ?b ?c] =>
        destruct (addMemberToServer_frame a b c) as (db1 & Hadd & _ & Hinv)
    end.
    rewrite Hadd in Hrun. injection Hrun as <-. left. by rewrite Hinv in Hcode.
  - unfold updateServer, modify in Hrun. injection Hrun as <-. by left.
  - destruct (addMemberToServer_frame uid id db) as (db1 & Hadd & _ & Hinv).
    rewrite Hadd in Hrun. injection Hrun as <-. left. by rewrite Hinv in Hcode.
  - unfold removeMemberFromServer, modify in Hrun. injection Hrun as <-. by left.
  - rewrite deleteServer_unfold in Hrun. injection Hrun as <-. left.
    cbn in Hcode. destruct Hcode as [inv Hinv].
    apply map_lookup_filter_Some in Hinv as [Hinv _]. by eexists.
  - unfold generateInvite, bind, modify, ret in Hrun. injection Hrun as <-.
    cbn in Hcode. unfold table_insert in Hcode.
    destruct (invites db !! invite) eqn:E; [by left|].
    apply lookup_insert_is_Some' in Hcode as [<-|Hcode]; [right; by left|by left].
Qed.

Lemma run_ops_invites hash ops : ∀ db db' code,
  run_ops hash ops db = Ret (tt, db') →
  is_Some (invites db' !! code) →
  is_Some (invites db !! code) ∨ code ∈ generated_codes ops.
Proof.
  induction ops as [|op ops IH]; intros db db' code Hrun Hcode.
  - injection Hrun as <-. by left.
  - apply run_ops_cons in Hrun as (db1 & H1 & Hrest).
    destruct (IH _ _ _ Hrest Hcode) as [Hc1|Hgen].
    + destruct (run_op_invites hash op db db1 code H1 Hc1) as [?|Hgen]; [by left|].
      right. destruct op; cbn in *; try by apply elem_of_nil in Hgen.
      apply list_elem_of_singleton in Hgen as ->. by left.
    + right. destruct op; cbn; try done. by right.
Qed.

(** C9. In a database built by a history of operations, an invite created
    under a code that the history has not generated (the codes of
    [shortId] are unique) is resolved by this code to the [serverId] and
    the [inviter] given; a code that has never been generated resolves to
    no invite. *)
Theorem generateInvite_getInvite hash ops db invite sid by_user :
  run_ops hash ops empty_db = Ret (tt, db) →
  invite ∉ generated_codes ops →
  ∃ db',
    generateInvite invite sid by_user db = Ret (invite, db')
    ∧ getInvite invite db' = Some (mkInvite sid by_user)
    ∧ run_ops hash (ops ++ [GenerateInvite invite sid by_user])%list empty_db
      = Ret (tt, db')
    ∧ (∀ code, code ∉ generated_codes ops → getInvite code db = None)
    ∧ (∀ code, code ≠ invite → code ∉ generated_codes ops →
               getInvite code db' = None).
Proof.
  intros Hrun Hnew.
  assert (∀ code, code ∉ generated_codes ops → invites db !! code = None) as Hnone.
  { intros code Hcode. destruct (invites db !! code) as [inv|] eqn:E; [|done].
    destruct (run_ops_invites hash ops _ _ code Hrun ltac:(by eexists)) as [[? H]|H].
    - cbn in H. by rewrite lookup_empty in H.
    - done. }
  eexists. split; [apply generateInvite_fresh; by apply Hnone|].
  unfold getInvite. cbn. split; [apply lookup_insert_eq|]. split.
  - rewrite (run_ops_app hash ops _ _ _ Hrun). cbn [run_ops run_op].
    unfold bind. by rewrite (generateInvite_fresh _ _ _ _ (Hnone _ Hnew)).
  - split; [done|]. intros code Hne Hcode. rewrite lookup_insert_ne by done.
    by apply Hnone.
Qed.

Lemma generateInvite_getInvite_witness :
  ∃ db',
    generateInvite "xyz" 2 "1" (mkDb ∅ ∅ {["abc" := mkInvite 1 "1"]})
    = Ret ("xyz", db')
    ∧ getInvite "xyz" db' = Some (mkInvite 2 "1")
    ∧ getInvite "nope" db' = None.
Proof.
  destruct (generateInvite_getInvite Reference.hash [GenerateInvite "abc" 1 "1"]
              (mkDb ∅ ∅ {["abc" := mkInvite 1 "1"]}) "xyz" 2 "1" eq_refl)
    as (db' & Hrun & Hget & _ & _ & Hnone).
  { by apply (bool_decide_unpack _); vm_compute. }
  exists db'. split; [done|]. split; [done|].
  apply Hnone; [done|]. by apply (bool_decide_unpack _); vm_compute.
Defined.

(** * Further properties *)

(** ** The retry loop *)

(** X1. [rollDiscriminator] returns the first draw that is free: when the
    draws before the [i]-th are taken and the [i]-th is free, the loop
    returns this draw after [i + 1] turns, and with fewer turns it has
    not returned. *)
Theorem rollDiscriminator_first_free rnd uname db i :
  (∀ j, (j < i)%nat → taken uname (draw rnd j) db) →
  ¬ taken uname (draw rnd i) db →
  (∀ fuel, (i < fuel)%nat →
     rollDiscriminator fuel rnd uname db = Ret (draw rnd i, db))
  ∧ (∀ fuel, (fuel ≤ i)%nat → rollDiscriminator fuel rnd uname db = Diverge).
Proof.
  revert rnd. induction i as [|i IH]; intros rnd Hbefore Hfree.
  - split.
    + intros [|fuel] Hlt; [lia|]. rewrite rollDiscriminator_unfold.
      by rewrite bool_decide_eq_false_2.
    + intros fuel Hle. by replace fuel with 0%nat by lia.
  - destruct (IH (λ k, rnd (S k))) as [IH1 IH2].
    { intros j Hj. apply (Hbefore (S j)). lia. }
    { done. }
    split.
    + intros [|fuel] Hlt; [lia|]. rewrite rollDiscriminator_unfold.
      rewrite bool_decide_eq_true_2 by (apply (Hbefore 0%nat); lia).
      apply IH1. lia.
    + intros [|fuel] Hle; [done|]. rewrite rollDiscriminator_unfold.
      rewrite bool_decide_eq_true_2 by (apply (Hbefore 0%nat); lia).
      apply IH2. lia.
Qed.

Lemma rollDiscriminator_first_free_witness :
  (∀ fuel, (1 < fuel)%nat →
     rollDiscriminator fuel Reference.round_robin "alice" Reference.accounts
     = Ret ("0002", Reference.accounts))
  ∧ rollDiscriminator 1 Reference.round_robin "alice" Reference.accounts = Diverge.
Proof.
  destruct (rollDiscriminator_first_free Reference.round_robin "alice"
              Reference.accounts 1) as [H1 H2].
  - intros j Hj. replace j with 0%nat by lia.
    by apply (bool_decide_unpack _); vm_compute.
  - by apply (bool_decide_unpack _); vm_compute.
  - split; [exact H1|]. by apply H2.
Defined.

(** ** Digits *)

Lemma digits_value_from_all_digits s : ∀ a n,
  digits_value_from a s = Some n → all_digits s.
Proof.
  induction s as [|c s IH]; intros a n H; [constructor|].
  cbn in H. destruct (digit_value c) as [v|] eqn:E; [|done].
  constructor; [by rewrite E|]. by apply (IH _ _ H).
Qed.

Lemma digits_value_all_digits s n : digits_value s = Some n → all_digits s.
Proof.
  destruct s as [|c s]; [done|]. apply digits_value_from_all_digits.
Qed.

(** A separator that is no digit does not occur in a string of digits. *)
Lemma all_digits_no_sep s c : all_digits s → digit_value c = None →
  c ∉ list_ascii_of_string s.
Proof.
  intros Hall Hc Hin. unfold all_digits in Hall. rewrite Forall_forall in Hall.
  destruct (Hall c Hin) as [v Hv]. congruence.
Qed.

(** ** Registration *)

Lemma createUser_run hash fuel rnd id salt uname pw db d :
  rollDiscriminator fuel rnd uname db = Ret (d, db) →
  createUser hash fuel rnd id salt uname pw db
  = Ret (uname ++ "#" ++ d,
         set_users (table_insert id (new_account hash salt uname d pw)) db).
Proof.
  intros Hroll. unfold createUser, bind at 1. rewrite Hroll.
  destruct (rollDiscriminator_ret _ _ _ _ _ _ Hroll) as (_ & _ & j & _ & ->).
  destruct (draw_well_formed rnd j) as [Hlen _].
  destruct (draw rnd j) as [|c s] eqn:E; [done|]. done.
Qed.

(** X2. Registration. When a discriminator (a string of four digits from
    [0001] to [9999]) remains unused for the username and the draws are
    fair, [createUser] returns (with enough fuel for the
    loop) the tag [username#discriminator] of a well-formed discriminator
    that no account of this username holds. Under an id that is not in
    use it stores the account with the hash of the password, no
    membership and offline; under an id in use it stores nothing and
    returns the tag all the same. The other accounts, the servers and the
    invites are as before. *)
Theorem createUser_spec hash rnd id salt uname pw db :
  unused_remains uname db → fair rnd →
  ∃ fuel d db',
    (∀ fuel', (fuel ≤ fuel')%nat →
       createUser hash fuel' rnd id salt uname pw db = Ret (uname ++ "#" ++ d, db'))
    ∧ is_discriminator d ∧ all_digits d
    ∧ ¬ taken uname d db
    ∧ (users db !! id = None →
       users db' !! id
       = Some (mkUser uname d (hash pw salt) Undefined [] false Undefined))
    ∧ (is_Some (users db !! id) → db' = db)
    ∧ (∀ k, k ≠ id → users db' !! k = users db !! k)
    ∧ servers_table db' = servers_table db
    ∧ invites db' = invites db.
Proof.
  intros Hav%unused_remains_available Hfair.
  destruct (rollDiscriminator_terminates rnd uname db Hav Hfair) as (fuel & d & Hr).
  destruct (rollDiscriminator_ret _ _ _ _ _ _ (Hr fuel ltac:(lia)))
    as (_ & Hfree & j & _ & ->).
  exists fuel, (draw rnd j). eexists. split.
  { intros fuel' Hle. apply createUser_run. by apply Hr. }
  pose proof (draw_well_formed rnd j) as Hwf.
  destruct Hwf as (Hlen & n & Hv & Hn).
  split. { split; [done|]. by exists n. }
  split; [by apply (digits_value_all_digits _ n)|].
  split; [done|]. unfold set_users, table_insert. cbn.
  split. { intros ->. apply lookup_insert_eq. }
  split. { intros [u Hu]. rewrite Hu. by destruct db. }
  split; [|done]. intros k Hk.
  destruct (users db !! id); [done|]. by apply lookup_insert_ne.
Qed.

Lemma createUser_spec_witness :
  ∃ fuel d db',
    (∀ fuel', (fuel ≤ fuel')%nat →
       createUser Reference.hash fuel' Reference.round_robin "3" 5 "alice" "hunter2"
         Reference.accounts
       = Ret ("alice" ++ "#" ++ d, db'))
    ∧ ¬ taken "alice" d Reference.accounts
    ∧ users db' !! "3"
      = Some (mkUser "alice" d (Reference.hash "hunter2" 5) Undefined [] false Undefined).
Proof.
  destruct (createUser_spec Reference.hash Reference.round_robin "3" 5 "alice"
              "hunter2" Reference.accounts accounts_unused_remains round_robin_fair)
    as (fuel & d & db' & Hrun & _ & _ & Hfree & Hnew & _).
  exists fuel, d, db'. split; [done|]. split; [done|].
  apply Hnew. by vm_compute.
Defined.

Lemma addMemberToServer_users uid id db :
  ∃ db', addMemberToServer uid id db = Ret (tt, db')
    ∧ ∀ k u', users db' !! k = Some u' →
        ∃ u, users db !! k = Some u ∧ username u' = username u
             ∧ discriminator u' = discriminator u.
Proof.
  destruct (users db !! uid) as [u|] eqn:Hu.
  2:{ exists db. rewrite addMemberToServer_noop by auto. split; [done|]. eauto. }
  destruct (servers_table db !! id) as [s|] eqn:Hs.
  2:{ exists db. rewrite addMemberToServer_noop by auto. split; [done|]. eauto. }
  destruct (decide (id ∈ servers u)) as [Hin|Hnin].
  { exists db. rewrite addMemberToServer_noop by (right; right; by exists u).
    split; [done|]. eauto. }
  eexists. rewrite (addMemberToServer_joins uid id db u) by (done || by eexists).
  split; [done|]. intros k u'. cbn.
  intros [[<- <-]|[_ Hk]]%lookup_insert_Some; [by exists u|by exists u'].
Qed.

(** ** Invariants of the histories *)

(** What an operation does to the tags: an account of the new database
    has the tag and the hash of the account under the same id before, or
    it is the one account that the operation has written a free tag to. *)
Lemma run_op_tags hash op db db' :
  run_op hash op db = Ret (tt, db') →
  ∃ k, ∀ uid u', users db' !! uid = Some u' →
    (∃ u, users db !! uid = Some u ∧ username u' = username u
          ∧ discriminator u' = discriminator u)
    ∨ (uid = k ∧ ¬ taken (username u') (discriminator u') db).
Proof.
  intros Hrun. destruct op; cbn [run_op] in Hrun.
  - unfold bind at 1 in Hrun.
    destruct (createUser _ _ _ _ _ _ _ db) as [[tag db1]| |] eqn:E; try done.
    injection Hrun as <-. apply createUser_ret in E as (d & Hroll & _ & ->).
    apply rollDiscriminator_ret in Hroll as (_ & Hfree & _).
    exists id. intros uid u'. cbn. unfold table_insert.
    destruct (users db !! id) eqn:Hid; [left; by exists u'|].
    intros [[<- <-]|[_ Hu]]%lookup_insert_Some; [by right|left; by exists u'].
  - unfold bind at 1 in Hrun.
    destruct (updateUser _ _ _ _ _ _ _ _ _ db) as [[tag db1]| |] eqn:E; try done.
    injection Hrun as <-. apply updateUser_ret in E as (d & Hroll & _ & ->).
    apply rollDiscriminator_ret in Hroll as (_ & Hfree & _).
    exists id. intros uid u'. cbn.
    intros [[<- (u0 & Hu0 & ->)]|[_ Hu]]%lookup_alter_Some;
      [by right|left; by exists u'].
  - injection Hrun as <-. exists id. intros uid u'. cbn.
    intros [_ Hu]%lookup_delete_Some. left. by exists u'.
  - unfold updatePresenceOf, try_catch, modify in Hrun. injection Hrun as <-.
    exists id. intros uid u'. cbn. unfold table_update.
    intros (u0 & Hu0 & [->| ->])%lookup_alter_account; left; by exists u0.
  - injection Hrun as <-. exists "". intros uid u'. cbn.
    rewrite lookup_fmap. destruct (users db !! uid) as [u0|] eqn:Hu0; [|done].
    intros [= <-]. left. by exists u0.
  - unfold bind at 1 in Hrun.
    destruct (createServer_unfold nm icon own db) as (sid' & _ & Hcs).
    rewrite Hcs in Hrun. clear Hcs. unfold bind at 1 in Hrun.
    match type of Hrun with
    | context [addMemberToServer ?a ?b ?c] =>
        destruct (addMemberToServer_users a b c) as (db1 & Hadd & Husers)
    end.
    rewrite Hadd in Hrun. injection Hrun as <-. exists own.
    intros uid u' Hu'. left. by apply Husers.
  - unfold updateServer, modify in Hrun. injection Hrun as <-.
    exists "". intros uid u' Hu'. left. by exists u'.
  - destruct (addMemberToServer_users uid id db) as (db1 & Hadd & Husers).
    rewrite Hadd in Hrun. injection Hrun as <-. exists uid.
    intros uid' u' Hu'. left. by apply Husers.
  - unfold removeMemberFromServer, modify in Hrun. injection Hrun as <-.
    exists uid. intros uid' u'. cbn. unfold table_update.
    intros (u0 & Hu0 & [->| ->])%lookup_alter_account; left; by exists u0.
  - rewrite deleteServer_unfold in Hrun. injection Hrun as <-.
    exists "". intros uid u'. cbn. rewrite lookup_fmap.
    destruct (users db !! uid) as [u0|] eqn:Hu0; [|done].
    intros [= <-]. left. by exists u0.
  - unfold generateInvite, bind, modify, ret in Hrun. injection Hrun as <-.
    exists "". intros uid u' Hu'. left. by exists u'.
Qed.

Lemma run_op_unique hash op db db' :
  run_op hash op db = Ret (tt, db') →
  discriminators_unique db → discriminators_unique db'.
Proof.
  intros Hrun Huniq. destruct (run_op_tags hash op db db' Hrun) as [k Htags].
  intros id1 id2 u1 u2 H1 H2 Hn Hd.
  destruct (Htags id1 u1 H1) as [(v1 & Hv1 & Hn1 & Hd1)|[-> Hfree1]],
           (Htags id2 u2 H2) as [(v2 & Hv2 & Hn2 & Hd2)|[-> Hfree2]].
  - apply (Huniq id1 id2 v1 v2); congruence.
  - exfalso. apply Hfree2. exists id1, v1. split; [done|]. split; congruence.
  - exfalso. apply Hfree1. exists id2, v2. split; [done|]. split; congruence.
  - done.
Qed.

Lemma run_op_positive hash op db db' :
  run_op hash op db = Ret (tt, db') →
  server_ids_positive db → server_ids_positive db'.
Proof.
  intros Hrun Hpos. destruct op; cbn [run_op] in Hrun.
  - unfold bind at 1 in Hrun.
    destruct (createUser _ _ _ _ _ _ _ db) as [[tag db1]| |] eqn:E; try done.
    injection Hrun as <-. by apply createUser_ret in E as (d & _ & _ & ->).
  - unfold bind at 1 in Hrun.
    destruct (updateUser _ _ _ _ _ _ _ _ _ db) as [[tag db1]| |] eqn:E; try done.
    injection Hrun as <-. by apply updateUser_ret in E as (d & _ & _ & ->).
  - by injection Hrun as <-.
  - unfold updatePresenceOf, try_catch, modify in Hrun. by injection Hrun as <-.
  - by injection Hrun as <-.
  - unfold bind at 1 in Hrun.
    destruct (createServer_unfold nm icon own db) as (sid' & Hnext & Hcs).
    rewrite Hcs in Hrun. clear Hcs. unfold bind at 1 in Hrun.
    match type of Hrun with
    | context [addMemberToServer ?a ?b ?c] =>
        destruct (addMemberToServer_frame a b c) as (db1 & Hadd & Hsrv & _)
    end.
    rewrite Hadd in Hrun. injection Hrun as <-. intros k. rewrite Hsrv. cbn.
    intros [<-|Hk]%lookup_insert_is_Some'; [|by apply Hpos].
    destruct Hnext as [[_ ->]|[Hprev _]]; [done|]. apply Hpos in Hprev. lia.
  - unfold updateServer, modify in Hrun. injection Hrun as <-.
    intros k. cbn. unfold table_update. rewrite lookup_alter_is_Some. apply Hpos.
  - destruct (addMemberToServer_frame uid id db) as (db1 & Hadd & Hsrv & _).
    rewrite Hadd in Hrun. injection Hrun as <-. intros k. rewrite Hsrv. apply Hpos.
  - unfold removeMemberFromServer, modify in Hrun. by injection Hrun as <-.
  - rewrite deleteServer_unfold in Hrun. injection Hrun as <-.
    intros k. cbn. intros [s [_ Hs]%lookup_delete_Some]. apply Hpos. by eexists.
  - unfold generateInvite, bind, modify, ret in Hrun. by injection Hrun as <-.
Qed.

Lemma run_ops_invariant hash (P : Db → Prop) :
  (∀ op db db', run_op hash op db = Ret (tt, db') → P db → P db') →
  ∀ ops db db', run_ops hash ops db = Ret (tt, db') → P db → P db'.
Proof.
  intros Hstep. induction ops as [|op ops IH]; intros db db' Hrun HP.
  - by injection Hrun as <-.
  - apply run_ops_cons in Hrun as (db1 & H1 & Hrest).
    apply (IH _ _ Hrest). by apply (Hstep op db).
Qed.

Lemma reachable_unique hash db : reachable hash db → discriminators_unique db.
Proof.
  intros [ops Hrun].
  apply (run_ops_invariant hash _ (run_op_unique hash) ops _ _ Hrun).
  intros id1 id2 u1 u2 H1. cbn in H1. by rewrite lookup_empty in H1.
Qed.

Lemma reachable_positive hash db : reachable hash db → server_ids_positive db.
Proof.
  intros [ops Hrun].
  apply (run_ops_invariant hash _ (run_op_positive hash) ops _ _ Hrun).
  intros k [s Hs]. cbn in Hs. by rewrite lookup_empty in Hs.
Qed.

(** X3. In every database that the operations build from the empty one,
    no two accounts have the same username and the same discriminator:
    the retry loop of [rollDiscriminator] keeps the tags apart through
    every [createUser] and [updateUser]. *)
Theorem discriminators_unique_reachable hash db id1 id2 u1 u2 :
  reachable hash db →
  users db !! id1 = Some u1 → users db !! id2 = Some u2 →
  username u1 = username u2 → discriminator u1 = discriminator u2 →
  id1 = id2.
Proof. intros Hreach. by apply (reachable_unique hash db Hreach). Qed.

Lemma discriminators_unique_reachable_witness :
  run_ops Reference.hash
    [CreateUser 2 Reference.round_robin "1" 7 "alice" "secret";
     CreateUser 2 Reference.round_robin "2" 8 "alice" "hunter2"] empty_db
  = Ret (tt, Sample.two_alices)
  ∧ discriminator Reference.alice ≠ discriminator Sample.alice2.
Proof.
  assert (run_ops Reference.hash
            [CreateUser 2 Reference.round_robin "1" 7 "alice" "secret";
             CreateUser 2 Reference.round_robin "2" 8 "alice" "hunter2"] empty_db
          = Ret (tt, Sample.two_alices)) as Hrun by (vm_compute; reflexivity).
  split; [exact Hrun|]. intros Hd.
  assert ("1" = "2") as Habs; [|done].
  apply (discriminators_unique_reachable Reference.hash Sample.two_alices
           "1" "2" Reference.alice Sample.alice2);
    [by eexists|vm_compute; reflexivity|vm_compute; reflexivity|done|exact Hd].
Defined.

(** X4. Registration, then authentication. After [createUser] has stored
    an account under a new id, a [Basic] header whose payload decodes to
    the returned tag, a colon and a password is answered with this account
    exactly when the password verifies against the stored hash, and with
    no account otherwise. The username has no [#] and no colon, the
    password tried no colon. *)
Theorem createUser_authenticate hash compare decode
    fuel rnd id salt uname pw db tag db' creds pw' :
  users db !! id = None →
  createUser hash fuel rnd id salt uname pw db = Ret (tag, db') →
  creds ≠ "" → " "%char ∉ list_ascii_of_string creds →
  decode creds = tag ++ ":" ++ pw' →
  uname ≠ "" → "#"%char ∉ list_ascii_of_string uname →
  ":"%char ∉ list_ascii_of_string uname →
  pw' ≠ "" → ":"%char ∉ list_ascii_of_string pw' →
  ∃ d, tag = uname ++ "#" ++ d
    ∧ users db' !! id = Some (new_account hash salt uname d pw)
    ∧ authenticate compare decode (Some ("Basic " ++ creds)) db'
      = Ret (if compare pw' (hash pw salt)
             then Some (id, new_account hash salt uname d pw) else None, db').
Proof.
  intros Hid Hrun Hc Hcs Hdec Hun Hu1 Hu2 Hp Hp2.
  apply createUser_ret in Hrun as (d & Hroll & -> & ->).
  apply rollDiscriminator_ret in Hroll as (_ & Hfree & j & _ & ->).
  destruct (draw_well_formed rnd j) as (Hlen & n & Hv & _).
  pose proof (digits_value_all_digits _ _ Hv) as Hdig.
  set (d := draw rnd j) in *.
  assert (d ≠ "") as Hd by (intros E; by rewrite E in Hlen).
  set (acct := new_account hash salt uname d pw).
  set (db' := set_users (table_insert id acct) db).
  assert (users db' !! id = Some acct) as Hacct.
  { unfold db', set_users, table_insert. cbn. rewrite Hid. apply lookup_insert_eq. }
  exists d. split; [done|]. split; [done|].
  rewrite (authenticate_parsed compare decode _ db'
             ["Basic"; creds] creds [uname ++ "#" ++ d; pw'] (uname ++ "#" ++ d) pw'
             [uname; d] uname d); try done.
  - rewrite (first_user_matching_only uname d db' id acct); [done|].
    split; [done|]. split; [done|]. split; [done|].
    intros id' u'. unfold db', set_users, table_insert. cbn. rewrite Hid.
    intros [[<- _]|[_ Hu']]%lookup_insert_Some Hn' Hd'; [done|].
    exfalso. apply Hfree. by exists id', u'.
  - split; [done|]. split; [|done].
    repeat constructor; [|done]. by apply (bool_decide_unpack _); vm_compute.
  - split; [by rewrite Hdec|]. split; [|done].
    repeat constructor; [|done].
    rewrite !list_ascii_of_string_app. cbn.
    rewrite elem_of_app, elem_of_cons. intros [?|[[=]|Hin]]; [done|].
    by apply (all_digits_no_sep d ":"%char Hdig).
  - split; [done|]. split; [|done]. repeat constructor; [done|].
    by apply (all_digits_no_sep d "#"%char Hdig).
  - by apply string_app_nonempty.
Qed.

Lemma createUser_authenticate_witness :
  createUser Reference.hash 1 Reference.round_robin "3" 5 "bob" "hunter2"
    Reference.accounts
  = Ret ("bob#0001", Sample.with_bob)
  ∧ authenticate Reference.compare Reference.decode
      (Some "Basic Ym9iIzAwMDE6aHVudGVyMg==") Sample.with_bob
    = Ret (Some ("3", Sample.bob), Sample.with_bob)
  ∧ authenticate Reference.compare Reference.decode
      (Some "Basic Ym9iIzAwMDE6d3Jvbmc=") Sample.with_bob
    = Ret (None, Sample.with_bob).
Proof.
  assert (createUser Reference.hash 1 Reference.round_robin "3" 5 "bob" "hunter2"
            Reference.accounts
          = Ret ("bob#0001", Sample.with_bob)) as Hrun by (vm_compute; reflexivity).
  assert (users Reference.accounts !! "3" = None) as Hid by (vm_compute; reflexivity).
  split; [exact Hrun|]. split.
  - destruct (createUser_authenticate Reference.hash Reference.compare Reference.decode
                1 Reference.round_robin "3" 5 "bob" "hunter2" Reference.accounts
                "bob#0001" Sample.with_bob "Ym9iIzAwMDE6aHVudGVyMg==" "hunter2"
                Hid Hrun)
      as (d & Htag & _ & Hauth);
      [done|by apply (bool_decide_unpack _); vm_compute|vm_compute; reflexivity|done
      |by apply (bool_decide_unpack _); vm_compute
      |by apply (bool_decide_unpack _); vm_compute|done
      |by apply (bool_decide_unpack _); vm_compute|].
    vm_compute in Htag. injection Htag as Hd. subst d. exact Hauth.
  - destruct (createUser_authenticate Reference.hash Reference.compare Reference.decode
                1 Reference.round_robin "3" 5 "bob" "hunter2" Reference.accounts
                "bob#0001" Sample.with_bob "Ym9iIzAwMDE6d3Jvbmc=" "wrong"
                Hid Hrun)
      as (d & Htag & _ & Hauth);
      [done|by apply (bool_decide_unpack _); vm_compute|vm_compute; reflexivity|done
      |by apply (bool_decide_unpack _); vm_compute
      |by apply (bool_decide_unpack _); vm_compute|done
      |by apply (bool_decide_unpack _); vm_compute|].
    vm_compute in Htag. injection Htag as Hd. subst d. exact Hauth.
Defined.

(** ** Rosters and membership *)

Lemma isInServer_true uid id db :
  isInServer uid id db = true ↔ ∃ u, users db !! uid = Some u ∧ id ∈ servers u.
Proof.
  unfold isInServer. destruct (users db !! uid) as [u|]; split.
  - intros H%bool_decide_eq_true. by exists u.
  - intros (u' & [= <-] & Hin). by apply bool_decide_eq_true.
  - done.
  - by intros (u' & ? & _).
Qed.

(** X5. The roster of a server and the membership lists agree: a member is
    in [getUsersInServer] (the members of [getServer]) exactly when
    [isInServer] holds of its id and it is what [getMember] returns for
    this id; and no account is listed twice. *)
Theorem getUsersInServer_roster id db :
  (∀ m, m ∈ getUsersInServer id db
        ↔ isInServer (member_id m) id db = true
          ∧ getMember (member_id m) db = Some m)
  ∧ NoDup (member_id <$> getUsersInServer id db)
  ∧ (∀ js, getServer id db = Some js → members js = getUsersInServer id db).
Proof.
  split; [|split].
  - intros m. rewrite elem_of_getUsersInServer, isInServer_true. unfold getMember.
    split.
    + intros (uid & u & Hu & Hin & ->). cbn. split; [by exists u|]. by rewrite Hu.
    + intros [(u & Hu & Hin) Hm]. rewrite Hu in Hm. injection Hm as <-.
      by exists (member_id m), u.
  - unfold getUsersInServer. rewrite <- list_fmap_compose.
    apply (sublist_NoDup _ ((table_docs (users db)).*1)).
    + apply NoDup_fst_map_to_list.
    + apply fmap_sublist, sublist_filter.
  - intros js. unfold getServer.
    destruct (servers_table db !! id); [|done]. by intros [= <-].
Qed.

(** X6. After [addMemberToServer] the user is in the server exactly when
    the user has an account and the server exists or the user was in it
    already: a join to a server that does not exist, or of a user without
    an account, is dropped in silence. *)
Theorem addMemberToServer_isInServer uid id db :
  ∃ db', addMemberToServer uid id db = Ret (tt, db')
    ∧ (isInServer uid id db' = true
       ↔ ∃ u, users db !! uid = Some u
              ∧ (is_Some (servers_table db !! id) ∨ id ∈ servers u))
    ∧ (∀ uid' id', (uid', id') ≠ (uid, id) →
         isInServer uid' id' db' = isInServer uid' id' db).
Proof.
  destruct (users db !! uid) as [u|] eqn:Hu.
  2:{ exists db. rewrite addMemberToServer_noop by auto. split; [done|].
      split; [|done]. rewrite isInServer_true, Hu. split; by intros (? & ? & _). }
  destruct (decide (id ∈ servers u)) as [Hin|Hnin].
  { exists db. rewrite addMemberToServer_noop by (right; right; by exists u).
    split; [done|]. split; [|done]. rewrite isInServer_true.
    split; [|by exists u]. intros _. exists u. auto. }
  destruct (servers_table db !! id) as [s|] eqn:Hs.
  2:{ exists db. rewrite addMemberToServer_noop by auto. split; [done|].
      split; [|done]. rewrite isInServer_true, Hu. split.
      - by intros (? & [= <-] & ?).
      - intros (? & [= <-] & [[? ?]|?]); done. }
  eexists. rewrite (addMemberToServer_joins uid id db u) by (done || by eexists).
  split; [done|]. split.
  - rewrite isInServer_true. cbn. rewrite lookup_insert_eq. split.
    + intros _. exists u. split; [done|]. left. by eexists.
    + intros _. eexists. split; [done|]. cbn. apply elem_of_app. right. by left.
  - intros uid' id' Hne. unfold isInServer. cbn.
    destruct (decide (uid' = uid)) as [->|Hu'].
    + rewrite lookup_insert_eq, Hu. cbn. apply bool_decide_ext.
      rewrite elem_of_app, list_elem_of_singleton. split; [|by left].
      intros [? | ->]; [done|]. by destruct Hne.
    + by rewrite lookup_insert_ne.
Qed.

Lemma removeMemberFromServer_unfold uid id db :
  removeMemberFromServer uid id db
  = Ret (tt, set_users
               (alter (λ u, with_servers (filter (λ x, x ≠ id) (servers u)) u) uid) db).
Proof.
  unfold removeMemberFromServer, modify, table_update, set_users. do 3 f_equal.
  apply alter_ext. intros u _. unfold difference_server, apply_update, with_servers.
  cbn. by rewrite list_difference_singleton.
Qed.

(** X7. [removeMemberFromServer] takes every occurrence of the server id
    out of the membership list of the user, keeps the other entries in
    their order and everything else as it is; for a user without an
    account it writes nothing. Afterwards the user is not in the server,
    whether the server exists or not. *)
Theorem removeMemberFromServer_spec uid id db :
  ∃ db', removeMemberFromServer uid id db = Ret (tt, db')
    ∧ users db' !! uid
      = (λ u, with_servers (filter (λ x, x ≠ id) (servers u)) u) <$> users db !! uid
    ∧ (users db !! uid = None → db' = db)
    ∧ (∀ k, k ≠ uid → users db' !! k = users db !! k)
    ∧ servers_table db' = servers_table db
    ∧ invites db' = invites db
    ∧ isInServer uid id db' = false
    ∧ (∀ id', id' ≠ id → isInServer uid id' db' = isInServer uid id' db).
Proof.
  eexists. split; [apply removeMemberFromServer_unfold|]. cbn.
  split; [apply lookup_alter_eq|].
  split. { intros Hu. unfold set_users. rewrite alter_id' by done. by destruct db. }
  split. { intros k Hk. by apply lookup_alter_ne. }
  split; [done|]. split; [done|]. unfold isInServer. cbn.
  rewrite lookup_alter_eq. destruct (users db !! uid) as [u|]; cbn; [|done].
  split.
  - apply bool_decide_eq_false. by intros [? _]%list_elem_of_filter.
  - intros id' Hne. apply bool_decide_ext. rewrite list_elem_of_filter.
    split; [by intros [_ ?]|by intros ?].
Qed.

(** X8. Joining a server and leaving it again gives the database back,
    when the user was not in the server before. *)
Theorem join_then_leave uid id db db1 db2 :
  isInServer uid id db = false →
  addMemberToServer uid id db = Ret (tt, db1) →
  removeMemberFromServer uid id db1 = Ret (tt, db2) →
  db2 = db.
Proof.
  intros Hnot Hjoin Hleave.
  rewrite removeMemberFromServer_unfold in Hleave. injection Hleave as <-.
  destruct (users db !! uid) as [u|] eqn:Hu.
  2:{ rewrite addMemberToServer_noop in Hjoin by auto. injection Hjoin as <-.
      unfold set_users. rewrite alter_id' by done. by destruct db. }
  assert (id ∉ servers u) as Hnin.
  { intros Hin. assert (isInServer uid id db = true); [|congruence].
    apply isInServer_true. by exists u. }
  assert (with_servers (filter (λ x, x ≠ id) (servers u)) u = u) as Hsame.
  { rewrite filter_absent by done. apply with_servers_id. }
  destruct (servers_table db !! id) as [s|] eqn:Hs.
  2:{ rewrite addMemberToServer_noop in Hjoin by auto. injection Hjoin as <-.
      unfold set_users. rewrite alter_id; [by destruct db|].
      intros u'. rewrite Hu. by intros [= <-]. }
  rewrite (addMemberToServer_joins uid id db u) in Hjoin by (done || by eexists).
  injection Hjoin as <-. unfold set_users. cbn.
  rewrite alter_insert_eq. unfold with_servers at 1. cbn.
  rewrite filter_app, filter_absent by done.
  rewrite filter_cons_False, filter_nil by (by intros H).
  rewrite app_nil_r. fold (with_servers (servers u) u). rewrite with_servers_id.
  rewrite insert_id by done. by destruct db.
Qed.

Lemma join_then_leave_witness :
  addMemberToServer "1" 1 Sample.guild = Ret (tt, Sample.guild_joined)
  ∧ isInServer "1" 1 Sample.guild_joined = true
  ∧ removeMemberFromServer "1" 1 Sample.guild_joined = Ret (tt, Sample.guild).
Proof.
  assert (addMemberToServer "1" 1 Sample.guild = Ret (tt, Sample.guild_joined))
    as Hjoin by (vm_compute; reflexivity).
  split; [exact Hjoin|]. split; [vm_compute; reflexivity|].
  pose proof (join_then_leave "1" 1 Sample.guild Sample.guild_joined _
                ltac:(vm_compute; reflexivity) Hjoin
                (removeMemberFromServer_unfold "1" 1 Sample.guild_joined)) as Heq.
  rewrite removeMemberFromServer_unfold. by rewrite Heq.
Defined.

(** ** Servers *)

Lemma createServer_ret nm icon own db r db1 :
  createServer nm icon own db = Ret (r, db1) →
  ∃ id, next_server_id id db
    ∧ r = Some (mkJoinedServer id nm icon own (getUsersInServer id db1))
    ∧ servers_table db1 = <[id := mkServer nm icon own]> (servers_table db)
    ∧ invites db1 = invites db
    ∧ users db1
      = match users db !! own with
        | Some u =>
            if decide (id ∈ servers u) then users db
            else <[own := with_servers (servers u ++ [id])%list u]> (users db)
        | None => users db
        end.
Proof.
  intros Hrun. destruct (createServer_unfold nm icon own db) as (id & Hnext & Hcs).
  rewrite Hcs in Hrun. clear Hcs. exists id. split; [done|].
  set (db0 := set_servers (<[id := mkServer nm icon own]>) db) in *.
  assert (servers_table db0 !! id = Some (mkServer nm icon own)) as Hs
    by apply lookup_insert_eq.
  unfold bind at 1 in Hrun. change (users db) with (users db0).
  destruct (users db0 !! own) as [u|] eqn:Hu.
  2:{ rewrite addMemberToServer_noop in Hrun by auto.
      unfold gets, getServer in Hrun. rewrite Hs in Hrun. by injection Hrun as <- <-. }
  destruct (decide (id ∈ servers u)) as [Hin|Hnin].
  { rewrite addMemberToServer_noop in Hrun by (right; right; by exists u).
    unfold gets, getServer in Hrun. rewrite Hs in Hrun. by injection Hrun as <- <-. }
  rewrite (addMemberToServer_joins own id db0 u) in Hrun by (done || by eexists).
  unfold gets, getServer in Hrun. cbn [servers_table set_users] in Hrun.
  fold (servers_table db0) in Hrun. rewrite Hs in Hrun. by injection Hrun as <- <-.
Qed.

Lemma next_server_id_ext id db db' :
  servers_table db' = servers_table db → next_server_id id db → next_server_id id db'.
Proof. unfold next_server_id. by intros ->. Qed.

(** X9. Creating a server and deleting it again gives back the accounts
    and the servers as they were, in a database that the operations have
    built. Of the invites, the ones that named the id of the new server
    are gone. *)
Theorem createServer_then_deleteServer hash nm icon own db js db1 db2 :
  reachable hash db →
  createServer nm icon own db = Ret (Some js, db1) →
  deleteServer (joined_id js) db1 = Ret (tt, db2) →
  users db2 = users db
  ∧ servers_table db2 = servers_table db
  ∧ (∀ code inv, invites db2 !! code = Some inv
                 ↔ invites db !! code = Some inv ∧ serverId inv ≠ joined_id js).
Proof.
  intros Hreach Hcreate Hdelete.
  pose proof (reachable_consistent hash db Hreach) as Hc.
  apply createServer_ret in Hcreate as (id & Hnext & [= ->] & Hs1 & Hi1 & Hu1).
  cbn [joined_id] in *.
  pose proof (next_server_id_fresh _ _ Hnext) as Hfresh.
  rewrite deleteServer_unfold in Hdelete. injection Hdelete as <-. cbn.
  assert (∀ uid u, users db !! uid = Some u → id ∉ servers u) as Hnone.
  { intros uid u Hu Hin. destruct (Hc uid u id Hu Hin) as [s Hs]. congruence. }
  split; [|split].
  - apply map_eq. intros k. rewrite lookup_fmap, Hu1.
    destruct (users db !! own) as [u|] eqn:Hown.
    + rewrite decide_False by (by apply (Hnone own u)).
      destruct (decide (own = k)) as [<-|Hne].
      * rewrite lookup_insert_eq, Hown. cbn. f_equal. unfold with_servers at 1. cbn.
        rewrite filter_app, filter_absent by (by apply (Hnone own u)).
        rewrite filter_cons_False, filter_nil by (by intros H).
        rewrite app_nil_r. apply with_servers_id.
      * rewrite lookup_insert_ne by done.
        destruct (users db !! k) as [u'|] eqn:Hk; [|done]. cbn. f_equal.
        rewrite filter_absent by (by apply (Hnone k u')). apply with_servers_id.
    + destruct (users db !! k) as [u'|] eqn:Hk; [|done]. cbn. f_equal.
      rewrite filter_absent by (by apply (Hnone k u')). apply with_servers_id.
  - rewrite Hs1. by apply delete_insert_id.
  - intros code inv. by rewrite map_lookup_filter_Some, Hi1.
Qed.

Lemma accounts_reachable : reachable Reference.hash Reference.accounts.
Proof. exists Sample.registrations. vm_compute. reflexivity. Qed.

Lemma createServer_then_deleteServer_witness :
  createServer "Guild" Null "1" Reference.accounts
  = Ret (Some Sample.joined_guild, Sample.alice_guild)
  ∧ ∃ db2, deleteServer 1 Sample.alice_guild = Ret (tt, db2)
      ∧ users db2 = users Reference.accounts
      ∧ servers_table db2 = servers_table Reference.accounts.
Proof.
  assert (createServer "Guild" Null "1" Reference.accounts
          = Ret (Some Sample.joined_guild, Sample.alice_guild)) as Hcreate
    by (vm_compute; reflexivity).
  split; [exact Hcreate|].
  eexists. split; [apply deleteServer_unfold|].
  destruct (createServer_then_deleteServer Reference.hash "Guild" Null "1"
              Reference.accounts Sample.joined_guild Sample.alice_guild _
              accounts_reachable Hcreate (deleteServer_unfold 1 Sample.alice_guild))
    as (Hu & Hs & _).
  by split.
Defined.

(** X10. Server ids are used again: after the server that [createServer]
    has just created is deleted, the next [createServer] gives out the
    same id. *)
Theorem createServer_reuses_id nm icon own nm' icon' own' db js db1 db2 r db3 :
  createServer nm icon own db = Ret (Some js, db1) →
  deleteServer (joined_id js) db1 = Ret (tt, db2) →
  createServer nm' icon' own' db2 = Ret (r, db3) →
  ∃ js', r = Some js' ∧ joined_id js' = joined_id js.
Proof.
  intros Hcreate Hdelete Hagain.
  apply createServer_ret in Hcreate as (id & Hnext & [= ->] & Hs1 & _ & _).
  cbn [joined_id] in *.
  rewrite deleteServer_unfold in Hdelete. injection Hdelete as <-.
  apply createServer_ret in Hagain as (id' & Hnext' & -> & _).
  eexists. split; [done|]. cbn. symmetry.
  apply (next_server_id_unique id id' db Hnext).
  refine (next_server_id_ext id' _ db _ Hnext'). cbn. rewrite Hs1.
  symmetry. apply delete_insert_id. by apply next_server_id_fresh.
Qed.

Lemma createServer_reuses_id_witness :
  ∃ js' db3,
    createServer "Guild" Null "1" Reference.accounts
    = Ret (Some Sample.joined_guild, Sample.alice_guild)
    ∧ createServer "Other" Null "2" Reference.accounts = Ret (Some js', db3)
    ∧ joined_id js' = joined_id Sample.joined_guild.
Proof.
  assert (createServer "Guild" Null "1" Reference.accounts
          = Ret (Some Sample.joined_guild, Sample.alice_guild)) as Hcreate
    by (vm_compute; reflexivity).
  assert (deleteServer 1 Sample.alice_guild = Ret (tt, Reference.accounts)) as Hdelete
    by (vm_compute; reflexivity).
  destruct (createServer "Other" Null "2" Reference.accounts) as [[r db3]| |] eqn:E;
    [|by vm_compute in E..].
  destruct (createServer_reuses_id "Guild" Null "1" "Other" Null "2"
              Reference.accounts Sample.joined_guild Sample.alice_guild
              Reference.accounts r db3 Hcreate Hdelete E) as (js' & -> & Hid).
  by exists js', db3.
Defined.

(** ** Ownership *)

Lemma getOwnedServers_insert uid id s db db' :
  servers_table db !! id = None →
  servers_table db' = <[id := s]> (servers_table db) →
  getOwnedServers uid db'
  = ((if decide (owner s = uid) then 1 else 0) + getOwnedServers uid db)%nat.
Proof.
  intros Hfresh Hs. unfold getOwnedServers, table_docs. rewrite Hs.
  rewrite (map_to_list_insert _ _ _ Hfresh). rewrite filter_cons. cbn.
  by destruct (decide (owner s = uid)).
Qed.

(** X11. [createServer] raises the number of servers that the owner owns
    ([getOwnedServers]) by one and leaves the number of every other user
    as it is. *)
Theorem createServer_getOwnedServers nm icon own db r db1 :
  createServer nm icon own db = Ret (r, db1) →
  getOwnedServers own db1 = S (getOwnedServers own db)
  ∧ ∀ uid, uid ≠ own → getOwnedServers uid db1 = getOwnedServers uid db.
Proof.
  intros Hcreate.
  apply createServer_ret in Hcreate as (id & Hnext & _ & Hs1 & _ & _).
  pose proof (next_server_id_fresh _ _ Hnext) as Hfresh.
  split.
  - rewrite (getOwnedServers_insert own id _ db db1 Hfresh Hs1). cbn.
    by rewrite decide_True.
  - intros uid Hne. rewrite (getOwnedServers_insert uid id _ db db1 Hfresh Hs1). cbn.
    by rewrite decide_False by (by intros <-).
Qed.

Lemma createServer_getOwnedServers_witness :
  getOwnedServers "1" Sample.alice_guild = 1%nat
  ∧ getOwnedServers "2" Sample.alice_guild = 0%nat.
Proof.
  destruct (createServer_getOwnedServers "Guild" Null "1" Reference.accounts
              (Some Sample.joined_guild) Sample.alice_guild
              ltac:(vm_compute; reflexivity)) as [H1 H2].
  split; [by rewrite H1|]. by rewrite H2.
Defined.

(** X12. [deleteServer] lowers the number of servers that the owner of
    the deleted server owns by one, and leaves every other number, and
    every number when there is no such server, as it is. *)
Theorem deleteServer_getOwnedServers id db db' :
  deleteServer id db = Ret (tt, db') →
  (∀ s, servers_table db !! id = Some s →
        getOwnedServers (owner s) db = S (getOwnedServers (owner s) db')
        ∧ ∀ uid, uid ≠ owner s → getOwnedServers uid db' = getOwnedServers uid db)
  ∧ (servers_table db !! id = None →
     ∀ uid, getOwnedServers uid db' = getOwnedServers uid db).
Proof.
  intros Hdelete. rewrite deleteServer_unfold in Hdelete. injection Hdelete as <-.
  split.
  - intros s Hs.
    assert (∀ uid, getOwnedServers uid db
                   = ((if decide (owner s = uid) then 1 else 0)
                      + getOwnedServers uid
                          (mkDb ((λ u, with_servers (filter (λ x, x ≠ id) (servers u)) u)
                                   <$> users db)
                                (delete id (servers_table db))
                                (filter (λ d, serverId d.2 ≠ id) (invites db))))%nat)
      as Hcount.
    { intros uid. unfold getOwnedServers, table_docs. cbn.
      rewrite <- (map_to_list_delete _ _ _ Hs). rewrite filter_cons. cbn.
      by destruct (decide (owner s = uid)). }
    split.
    + rewrite (Hcount (owner s)). by rewrite decide_True.
    + intros uid Hne. rewrite (Hcount uid). by rewrite decide_False.
  - intros Hnone uid. unfold getOwnedServers. cbn. by rewrite delete_id.
Qed.

Lemma deleteServer_getOwnedServers_witness :
  deleteServer 1 Sample.alice_guild = Ret (tt, Reference.accounts)
  ∧ getOwnedServers "1" Sample.alice_guild = S (getOwnedServers "1" Reference.accounts).
Proof.
  assert (deleteServer 1 Sample.alice_guild = Ret (tt, Reference.accounts)) as Hdelete
    by (vm_compute; reflexivity).
  split; [exact Hdelete|].
  destruct (deleteServer_getOwnedServers 1 Sample.alice_guild Reference.accounts Hdelete)
    as [H _].
  by destruct (H (mkServer "Guild" Null "1") ltac:(vm_compute; reflexivity)) as [H1 _].
Defined.

(** X13. The server that [createServer] has created is owned
    ([ownsServer]) by the owner given and by nobody else, whether the
    owner has an account or not; the ownership of the other servers is as
    before. *)
Theorem createServer_ownsServer nm icon own db js db1 :
  createServer nm icon own db = Ret (Some js, db1) →
  (∀ uid, ownsServer uid (joined_id js) db1 = bool_decide (uid = own))
  ∧ (∀ uid, ownsServer uid (joined_id js) db = false)
  ∧ (∀ uid id, id ≠ joined_id js → ownsServer uid id db1 = ownsServer uid id db).
Proof.
  intros Hcreate.
  apply createServer_ret in Hcreate as (id & Hnext & [= ->] & Hs1 & _ & _).
  cbn [joined_id]. unfold ownsServer. rewrite Hs1.
  split; [|split].
  - intros uid. rewrite lookup_insert_eq. cbn. by apply bool_decide_ext.
  - intros uid. by rewrite (next_server_id_fresh _ _ Hnext).
  - intros uid id' Hne. by rewrite lookup_insert_ne.
Qed.

Lemma createServer_ownsServer_witness :
  ownsServer "1" 1 Sample.alice_guild = true
  ∧ ownsServer "2" 1 Sample.alice_guild = false.
Proof.
  destruct (createServer_ownsServer "Guild" Null "1" Reference.accounts
              Sample.joined_guild Sample.alice_guild
              ltac:(vm_compute; reflexivity)) as [H _].
  split; [exact (H "1")|exact (H "2")].
Defined.

(** X14. [updateServer] is a partial update: the name is replaced only by
    a name that is a nonempty string, [iconUrl] is written for [null] and
    for a string and kept when omitted, and the owner is never changed,
    so that [ownsServer] answers as before. A server that does not exist
    is not created; the other servers, the accounts and the invites are
    as before. *)
Theorem updateServer_spec id nm icon db :
  ∃ db', updateServer id nm icon db = Ret (tt, db')
    ∧ (servers_table db !! id = None → servers_table db' !! id = None)
    ∧ (∀ s, servers_table db !! id = Some s →
         ∃ s', servers_table db' !! id = Some s'
           ∧ (∀ n, nm = Val n → n ≠ "" → name s' = n)
           ∧ (nm = Undefined ∨ nm = Null ∨ nm = Val "" → name s' = name s)
           ∧ (icon = Undefined → iconUrl s' = iconUrl s)
           ∧ (icon ≠ Undefined → iconUrl s' = icon)
           ∧ owner s' = owner s)
    ∧ (∀ k, k ≠ id → servers_table db' !! k = servers_table db !! k)
    ∧ (∀ uid k, ownsServer uid k db' = ownsServer uid k db)
    ∧ users db' = users db
    ∧ invites db' = invites db.
Proof.
  eexists. split; [done|]. cbn. unfold table_update.
  split. { intros Hs. by rewrite lookup_alter_eq, Hs. }
  split.
  { intros s Hs. eexists. split; [by rewrite lookup_alter_eq, Hs|].
    split. { intros n -> Hn. by destruct n, icon. }
    split. { intros [->|[->| ->]]; by destruct icon. }
    split. { intros ->. by destruct nm as [| |[|c n]]. }
    split. { intros Hi. by destruct nm as [| |[|c n]], icon. }
    by destruct nm as [| |[|c n]], icon. }
  split. { intros k Hk. by apply lookup_alter_ne. }
  split; [|done].
  intros uid k. unfold ownsServer. cbn. rewrite lookup_alter.
  destruct (decide (id = k)) as [<-|]; [|done].
  destruct (servers_table db !! id) as [s|]; [|done]. cbn.
  by destruct nm as [| |[|c n]], icon.
Qed.

(** X15. In a database that the operations have built, the server ids are
    1 or more, and [serverExists] is true of an id exactly when
    [getServer] finds the server. Outside of such databases a server with
    the id 0 would be reported as missing. *)
Theorem serverExists_getServer hash db id :
  reachable hash db →
  (serverExists id db = true ↔ ∃ k, id = Val k ∧ is_Some (getServer k db))
  ∧ (∀ k, is_Some (getServer k db) → (1 ≤ k)%Z).
Proof.
  intros Hreach. pose proof (reachable_positive hash db Hreach) as Hpos.
  assert (∀ k, is_Some (getServer k db) ↔ is_Some (servers_table db !! k)) as Hget.
  { intros k. unfold getServer. destruct (servers_table db !! k); [|done].
    split; by eexists. }
  split.
  - destruct id as [| |k]; cbn; try (split; [done|by intros (? & ? & _)]).
    case_bool_decide as Hk.
    + subst k. split; [done|]. intros (k & [= <-] & Hs%Hget%Hpos). lia.
    + rewrite bool_decide_eq_true. split.
      * intros Hs. exists k. by rewrite Hget.
      * intros (k' & [= <-] & Hs). by apply Hget.
  - intros k Hk. by apply Hpos, Hget.
Qed.

Lemma serverExists_getServer_witness :
  reachable Reference.hash Sample.alice_guild
  ∧ serverExists (Val 1%Z) Sample.alice_guild = true
  ∧ is_Some (getServer 1 Sample.alice_guild)
  ∧ serverExists (Val 0%Z) (mkDb ∅ {[0%Z := mkServer "Zero" Null "1"]} ∅) = false.
Proof.
  assert (reachable Reference.hash Sample.alice_guild) as Hreach.
  { exists (Sample.registrations ++ [CreateServer "Guild" Null "1"])%list.
    vm_compute. reflexivity. }
  split; [exact Hreach|].
  destruct (serverExists_getServer Reference.hash Sample.alice_guild (Val 1%Z) Hreach)
    as [Hiff _].
  assert (is_Some (getServer 1 Sample.alice_guild)) as Hget by (by eexists).
  split; [|split; [exact Hget|reflexivity]].
  apply Hiff. by exists 1%Z.
Defined.

(** ** Presence *)

(** X16. [resetPresenceStates] sets every account offline and changes
    nothing else: the roster of every server lists the same members, now
    offline, in the same order. *)
Theorem resetPresenceStates_spec db :
  ∃ db', resetPresenceStates db = Ret (tt, db')
    ∧ (∀ uid, users db' !! uid
              = (λ u, mkUser (username u) (discriminator u) (password u)
                             (avatarUrl u) (servers u) false (admin u))
                  <$> users db !! uid)
    ∧ (∀ id, getUsersInServer id db'
             = (λ m, mkMember (member_id m) (member_username m)
                              (member_discriminator m) (member_avatarUrl m)
                              false (member_admin m))
                 <$> getUsersInServer id db)
    ∧ servers_table db' = servers_table db
    ∧ invites db' = invites db.
Proof.
  eexists. split; [done|]. cbn.
  split. { intros uid. by rewrite lookup_fmap. }
  split; [|done].
  intros id. unfold getUsersInServer, table_docs. cbn.
  rewrite map_to_list_fmap.
  induction (map_to_list (users db)) as [|[uid u] l IH]; [done|].
  rewrite fmap_cons, !filter_cons. cbn.
  destruct (decide (id ∈ servers u)); cbn; by rewrite IH.
Qed.

(** X17. [updatePresenceOf] writes the presence of the one account and
    nothing else; for an id without an account it writes nothing. It does
    not throw. *)
Theorem updatePresenceOf_spec uid b db :
  ∃ db', updatePresenceOf uid b db = Ret (tt, db')
    ∧ users db' !! uid
      = (λ u, mkUser (username u) (discriminator u) (password u)
                     (avatarUrl u) (servers u) b (admin u))
          <$> users db !! uid
    ∧ (users db !! uid = None → db' = db)
    ∧ (∀ k, k ≠ uid → users db' !! k = users db !! k)
    ∧ (∀ k id, isInServer k id db' = isInServer k id db)
    ∧ servers_table db' = servers_table db
    ∧ invites db' = invites db.
Proof.
  eexists. split; [done|]. cbn. unfold table_update.
  split; [apply lookup_alter_eq|].
  split. { intros Hu. unfold set_users. rewrite alter_id' by done. by destruct db. }
  split. { intros k Hk. by apply lookup_alter_ne. }
  split; [|done]. intros k id. unfold isInServer. cbn. rewrite lookup_alter.
  destruct (decide (uid = k)) as [<-|]; [|done].
  by destruct (users db !! uid).
Qed.

(** ** Deleting an account *)

(** X18. [deleteUser] removes the account and nothing else: the account
    is in no roster any more, while the servers it owns stay, with their
    owner ([ownsServer], [getOwnedServers]), and so do the invites it has
    issued. *)
Theorem deleteUser_spec uid db :
  ∃ db', deleteUser uid db = Ret (tt, db')
    ∧ getUser uid db' = None
    ∧ (∀ k, k ≠ uid → getUser k db' = getUser k db)
    ∧ (∀ id, isInServer uid id db' = false)
    ∧ (∀ id m, m ∈ getUsersInServer id db'
               ↔ m ∈ getUsersInServer id db ∧ member_id m ≠ uid)
    ∧ (∀ k id, ownsServer k id db' = ownsServer k id db)
    ∧ (∀ k, getOwnedServers k db' = getOwnedServers k db)
    ∧ servers_table db' = servers_table db
    ∧ invites db' = invites db.
Proof.
  eexists. split; [done|]. unfold getUser. cbn.
  split; [apply lookup_delete_eq|].
  split. { intros k Hk. by apply lookup_delete_ne. }
  split. { intros id. unfold isInServer. cbn. by rewrite lookup_delete_eq. }
  split; [|done].
  intros id m. rewrite !elem_of_getUsersInServer. cbn. split.
  - intros (k & u & [Hne Hu]%lookup_delete_Some & Hin & ->).
    split; [by exists k, u|]. cbn. congruence.
  - intros [(k & u & Hu & Hin & ->) Hne]. cbn in Hne. exists k, u.
    split; [|done]. apply lookup_delete_Some. split; [congruence|done].
Qed.

(** ** Deleting a server twice *)

(** X19. [deleteServer] is idempotent: a second deletion of the same id
    changes nothing. *)
Theorem deleteServer_idempotent id db db1 :
  deleteServer id db = Ret (tt, db1) →
  deleteServer id db1 = Ret (tt, db1).
Proof.
  intros H. rewrite deleteServer_unfold in H. injection H as <-.
  rewrite deleteServer_unfold. cbn. do 2 f_equal. f_equal.
  - rewrite <- map_fmap_compose. apply map_fmap_ext. intros uid u _. cbn.
    unfold with_servers. cbn. f_equal.
    apply filter_absent. by intros [? _]%list_elem_of_filter.
  - apply delete_delete_eq.
  - apply map_filter_id. intros code inv [_ Hne]%map_lookup_filter_Some. done.
Qed.

Lemma deleteServer_idempotent_witness :
  deleteServer 1 Sample.alice_guild = Ret (tt, Reference.accounts)
  ∧ deleteServer 1 Reference.accounts = Ret (tt, Reference.accounts).
Proof.
  assert (deleteServer 1 Sample.alice_guild = Ret (tt, Reference.accounts)) as Hdelete
    by (vm_compute; reflexivity).
  split; [exact Hdelete|].
  exact (deleteServer_idempotent 1 Sample.alice_guild Reference.accounts Hdelete).
Defined.

(** ** Accepting an invite *)

(** X20. An invite under a new code, resolved and used to join: the user
    is in the server afterwards exactly when the server exists (or the
    user was in it already), for [generateInvite] stores the invite
    without a look at the servers; and the invite is still there to be
    used again. *)
Theorem invite_then_join invite sid by_user uid u db :
  invites db !! invite = None →
  users db !! uid = Some u →
  ∃ db1 db2,
    generateInvite invite sid by_user db = Ret (invite, db1)
    ∧ getInvite invite db1 = Some (mkInvite sid by_user)
    ∧ addMemberToServer uid sid db1 = Ret (tt, db2)
    ∧ (isInServer uid sid db2 = true
       ↔ is_Some (servers_table db !! sid) ∨ sid ∈ servers u)
    ∧ getInvite invite db2 = Some (mkInvite sid by_user).
Proof.
  intros Hfresh Hu.
  set (db1 := set_invites (<[invite := mkInvite sid by_user]>) db).
  assert (getInvite invite db1 = Some (mkInvite sid by_user)) as Hget
    by apply lookup_insert_eq.
  exists db1.
  destruct (decide (sid ∈ servers u)) as [Hin|Hnin].
  { exists db1. rewrite generateInvite_fresh by done.
    rewrite addMemberToServer_noop by (right; right; by exists u).
    repeat split; try done; [by right|]. intros _. apply isInServer_true. by exists u. }
  destruct (servers_table db !! sid) as [s|] eqn:Hs.
  - eexists. rewrite generateInvite_fresh by done.
    rewrite (addMemberToServer_joins uid sid db1 u) by (done || by eexists).
    repeat split; try done; [by left|]. intros _. apply isInServer_true.
    eexists. cbn. split; [apply lookup_insert_eq|]. cbn.
    apply elem_of_app. right. by left.
  - exists db1. rewrite generateInvite_fresh by done.
    rewrite addMemberToServer_noop by auto.
    repeat split; try done.
    + intros (u' & Hu' & Hin)%isInServer_true.
      change (users db1) with (users db) in Hu'. congruence.
    + by intros [[? ?]|?].
Qed.

Lemma invite_then_join_witness :
  ∃ db1 db2,
    generateInvite "abc" 1 "2" Sample.guild = Ret ("abc", db1)
    ∧ getInvite "abc" db1 = Some (mkInvite 1 "2")
    ∧ addMemberToServer "1" 1 db1 = Ret (tt, db2)
    ∧ isInServer "1" 1 db2 = true
    ∧ getInvite "abc" db2 = Some (mkInvite 1 "2").
Proof.
  destruct (invite_then_join "abc" 1 "2" "1" Reference.alice Sample.guild
              ltac:(vm_compute; reflexivity) ltac:(vm_compute; reflexivity))
    as (db1 & db2 & Hgen & Hget & Hjoin & Hin & Hstill).
  exists db1, db2. repeat split; try done.
  apply Hin. left. by eexists.
Defined.

(** ** Messages *)

(** X21. [storeMessage] then [retrieveMessage]: under a new id the message
    is stored with its author, server, contents and the time of the call;
    under an id in use nothing is written and the message stored before
    is retrieved. The other messages are as before. *)
Theorem storeMessage_retrieveMessage now id who sid text messages :
  retrieveMessage id (storeMessage now id who sid text messages)
  = Some (default (mkMessage who sid text now) (messages !! id))
  ∧ (is_Some (messages !! id) →
     storeMessage now id who sid text messages = messages)
  ∧ (∀ k, k ≠ id →
       retrieveMessage k (storeMessage now id who sid text messages)
       = retrieveMessage k messages).
Proof.
  unfold retrieveMessage, storeMessage, table_insert.
  destruct (messages !! id) as [m|] eqn:Hm; cbn.
  - split; [done|]. split; [done|]. done.
  - split; [apply lookup_insert_eq|]. split; [by intros [? ?]|].
    intros k Hk. by apply lookup_insert_ne.
Qed.

(** X22. The life of a message stored under a new id: [updateMessage]
    replaces its contents and keeps its author, its server and its time of
    creation; [deleteMessage] removes it; and an update after the deletion
    does not bring it back. *)
Theorem message_lifecycle now id who sid text text' messages :
  messages !! id = None →
  let stored := storeMessage now id who sid text messages in
  let updated := updateMessage id text' stored in
  let deleted := deleteMessage id updated in
  retrieveMessage id updated = Some (mkMessage who sid text' now)
  ∧ (∀ k, k ≠ id → retrieveMessage k updated = retrieveMessage k messages)
  ∧ retrieveMessage id deleted = None
  ∧ deleted = messages
  ∧ updateMessage id text' deleted = deleted.
Proof.
  intros Hfresh. cbn zeta.
  unfold retrieveMessage, deleteMessage, updateMessage, storeMessage,
    table_update, table_insert.
  rewrite Hfresh.
  split. { by rewrite lookup_alter_eq, lookup_insert_eq. }
  split. { intros k Hk. by rewrite lookup_alter_ne, lookup_insert_ne. }
  split; [apply lookup_delete_eq|].
  rewrite alter_insert_eq, delete_insert_id by done.
  split; [done|]. by apply alter_id'.
Qed.

Lemma message_lifecycle_witness :
  retrieveMessage "m1" (updateMessage "m1" "bye" (storeMessage 1000 "m1" "1" 1 "hi" ∅))
  = Some (mkMessage "1" 1 "bye" 1000)
  ∧ deleteMessage "m1" (updateMessage "m1" "bye" (storeMessage 1000 "m1" "1" 1 "hi" ∅))
    = ∅.
Proof.
  destruct (message_lifecycle 1000 "m1" "1" 1 "hi" "bye" ∅ (lookup_empty _))
    as (Hupd & _ & _ & Hdel & _).
  by split.
Defined.

(** ** The logger *)

Lemma forceTwoDigits_all :
  all_from 100 0
    (λ n, (String.length (forceTwoDigits n) =? 2)%nat
          && match digits_value (forceTwoDigits n) with
             | Some m => (m =? n)%N
             | None => false
             end) = true.
Proof. vm_compute. reflexivity. Qed.

(** X23. [forceTwoDigits] of a number below 100 (an hour, a minute, a
    second) is a string of two decimal digits that reads as the number;
    a number that prints with two digits or more is printed as it is. *)
Theorem forceTwoDigits_spec n :
  ((n < 100)%N →
   String.length (forceTwoDigits n) = 2%nat
   ∧ digits_value (forceTwoDigits n) = Some n)
  ∧ ((2 ≤ String.length (toString n))%nat → forceTwoDigits n = toString n).
Proof.
  split.
  - intros Hn.
    pose proof (all_from_spec _ _ _ n forceTwoDigits_all ltac:(lia)) as H.
    cbn beta in H. apply andb_prop in H as [H1 H2].
    apply Nat.eqb_eq in H1. split; [done|].
    destruct (digits_value (forceTwoDigits n)) as [m|]; [|done].
    by apply N.eqb_eq in H2 as ->.
  - intros Hlen. unfold forceTwoDigits, padStart.
    by replace (2 - String.length (toString n))%nat with 0%nat by lia.
Qed.

(** ** Credentials after a change of the account *)

(** A header with the payload [name#discriminator:password]. *)
Lemma authenticate_tagged compare decode db creds nm disc pw :
  creds ≠ "" → " "%char ∉ list_ascii_of_string creds →
  decode creds = (nm ++ "#" ++ disc) ++ ":" ++ pw →
  nm ≠ "" → disc ≠ "" → pw ≠ "" →
  "#"%char ∉ list_ascii_of_string nm → ":"%char ∉ list_ascii_of_string nm →
  "#"%char ∉ list_ascii_of_string disc → ":"%char ∉ list_ascii_of_string disc →
  ":"%char ∉ list_ascii_of_string pw →
  authenticate compare decode (Some ("Basic " ++ creds)) db =
    Ret (match first_user_matching nm disc db with
         | Some u => if compare pw (password u.2) then Some u else None
         | None => None
         end, db).
Proof.
  intros Hc Hcs Hdec Hnm Hdisc Hpw Hn1 Hn2 Hd1 Hd2 Hp.
  apply (authenticate_parsed compare decode _ db
           ["Basic"; creds] creds [nm ++ "#" ++ disc; pw] (nm ++ "#" ++ disc) pw
           [nm; disc] nm disc); try done.
  - split; [done|]. split; [|done].
    repeat constructor; [|done]. by apply (bool_decide_unpack _); vm_compute.
  - split; [by rewrite Hdec|]. split; [|done]. repeat constructor; [|done].
    rewrite !list_ascii_of_string_app. cbn.
    rewrite elem_of_app, elem_of_cons. intros [?|[[=]|?]]; done.
  - split; [done|]. split; [|done]. by repeat constructor.
  - by apply string_app_nonempty.
Qed.

(** X24. A profile update ends the old credentials: [updateUser] draws a
    new discriminator also when the username and the password are kept,
    so a header with the tag that the account had before is answered with
    no account afterwards, whatever password (nonempty, without a colon)
    it carries. *)
Theorem updateUser_ends_old_tag hash compare decode
    fuel rnd salt id uname pw avatar adm db tag db' nm disc u creds pw0 :
  only_account nm disc id u db →
  updateUser hash fuel rnd salt id uname pw avatar adm db = Ret (tag, db') →
  creds ≠ "" → " "%char ∉ list_ascii_of_string creds →
  decode creds = (nm ++ "#" ++ disc) ++ ":" ++ pw0 →
  nm ≠ "" → disc ≠ "" → pw0 ≠ "" →
  "#"%char ∉ list_ascii_of_string nm → ":"%char ∉ list_ascii_of_string nm →
  "#"%char ∉ list_ascii_of_string disc → ":"%char ∉ list_ascii_of_string disc →
  ":"%char ∉ list_ascii_of_string pw0 →
  authenticate compare decode (Some ("Basic " ++ creds)) db' = Ret (None, db').
Proof.
  intros (Hu & Hn & Hd & Honly) Hrun Hc Hcs Hdec Hnm Hdisc Hpw Hn1 Hn2 Hd1 Hd2 Hp.
  rewrite (authenticate_tagged compare decode db' creds nm disc pw0) by done.
  apply updateUser_ret in Hrun as (d & Hroll & -> & ->).
  apply rollDiscriminator_ret in Hroll as (_ & Hfree & _).
  assert (first_user_matching nm disc
            (set_users (alter (updated_account hash salt uname d pw avatar adm) id) db)
          = None) as ->; [|done].
  apply first_user_matching_None. intros (k & u' & Hk & Hn' & Hd'). cbn in Hk.
  apply lookup_alter_Some in Hk as [[<- (u0 & Hu0 & ->)]|[Hne Hk]].
  - cbn in Hn', Hd'. subst uname d. apply Hfree. by exists id, u.
  - apply Hne. symmetry. by apply (Honly k u').
Qed.

Lemma updateUser_ends_old_tag_witness :
  authenticate Reference.compare Reference.decode
    (Some "Basic YWxpY2UjMDAwMTpzZWNyZXQ=") Reference.accounts
  = Ret (Some ("1", Reference.alice), Reference.accounts)
  ∧ ∃ db', updateUser Reference.hash 2 Reference.round_robin 3 "1" "alice"
             Undefined Undefined Undefined Reference.accounts
           = Ret ("alice#0002", db')
      ∧ authenticate Reference.compare Reference.decode
          (Some "Basic YWxpY2UjMDAwMTpzZWNyZXQ=") db'
        = Ret (None, db').
Proof.
  split; [vm_compute; reflexivity|].
  destruct (updateUser Reference.hash 2 Reference.round_robin 3 "1" "alice"
              Undefined Undefined Undefined Reference.accounts)
    as [[tag db']| |] eqn:E; [|by vm_compute in E..].
  exists db'. split.
  - f_equal. f_equal. revert E. vm_compute. by intros [= <- _].
  - change "Basic YWxpY2UjMDAwMTpzZWNyZXQ=" with ("Basic " ++ "YWxpY2UjMDAwMTpzZWNyZXQ=").
    apply (updateUser_ends_old_tag Reference.hash Reference.compare Reference.decode
             2 Reference.round_robin 3 "1" "alice" Undefined Undefined Undefined
             Reference.accounts tag db' "alice" "0001" Reference.alice
             "YWxpY2UjMDAwMTpzZWNyZXQ=" "secret" accounts_only_alice E);
      first [by vm_compute | by apply (bool_decide_unpack _); vm_compute | done].
Defined.



(** ** The owner and the roster *)

(** X26. Nothing keeps the owner in the server: after [createServer] the
    owner can leave through [removeMemberFromServer], and then owns a
    server without being in it. *)
Theorem owner_can_leave nm icon own db js db1 :
  createServer nm icon own db = Ret (Some js, db1) →
  ∃ db2, removeMemberFromServer own (joined_id js) db1 = Ret (tt, db2)
    ∧ ownsServer own (joined_id js) db2 = true
    ∧ isInServer own (joined_id js) db2 = false
    ∧ ∀ m, m ∈ getUsersInServer (joined_id js) db2 → member_id m ≠ own.
Proof.
  intros Hcreate.
  apply createServer_ret in Hcreate as (id & Hnext & [= ->] & Hs1 & _ & _).
  cbn [joined_id].
  eexists. split; [apply removeMemberFromServer_unfold|].
  assert (∀ u, alter (λ u, with_servers (filter (λ x, x ≠ id) (servers u)) u) own
                 (users db1) !! own = Some u → id ∉ servers u) as Hout.
  { intros u. rewrite lookup_alter_eq.
    destruct (users db1 !! own) as [u0|]; [|done]. intros [= <-]. cbn.
    by intros [? _]%list_elem_of_filter. }
  split; [|split].
  - unfold ownsServer. cbn. rewrite Hs1, lookup_insert_eq. cbn.
    by apply bool_decide_eq_true.
  - destruct (isInServer own id _) eqn:E; [|done].
    apply isInServer_true in E as (u & Hu & Hin). cbn in Hu. by destruct (Hout u Hu).
  - intros m (k & u & Hu & Hin & ->)%elem_of_getUsersInServer. cbn. intros ->.
    cbn in Hu. by destruct (Hout u Hu).
Qed.

Lemma owner_can_leave_witness :
  ∃ db2, removeMemberFromServer "1" 1 Sample.alice_guild = Ret (tt, db2)
    ∧ ownsServer "1" 1 db2 = true
    ∧ isInServer "1" 1 db2 = false.
Proof.
  destruct (owner_can_leave "Guild" Null "1" Reference.accounts
              Sample.joined_guild Sample.alice_guild
              ltac:(vm_compute; reflexivity)) as (db2 & Hrun & Howns & Hin & _).
  by exists db2.
Defined.
